(** * pytest-alembic: the migration runner ([src/pytest_alembic/runner.py])

    A shallow embedding of [runner], [MigrationContext] and [RevisionSuccess].

    The Command Executor, the Connection Executor and the caller's callbacks
    are external collaborators: their behaviour is a parameter (a transition
    on an abstract world that may return or raise), and every call made on
    them is recorded, in order, in a trace.  The methods of
    [MigrationContext] run in a state-and-exception monad whose state holds
    the fields of [self], the world and the trace. *)

From stdpp Require Import gmap strings list fin_maps.
From Stdlib Require Import Ascii String ZArith.

Open Scope string_scope.
Open Scope list_scope.

Set Warnings "-register-all".

(** ** Python values that cross the interfaces *)

Inductive pyval :=
| VNone
| VBool (b : bool)
| VInt (n : Z)
| VStr (s : string)
| VList (items : list pyval)
| VDict (entries : list (string * pyval)).

(** Truth value of an object in a condition ([if x:]). *)
Definition truthy (v : pyval) : bool :=
  match v with
  | VNone => false
  | VBool b => b
  | VInt n => negb (Z.eqb n 0)
  | VStr s => negb (String.eqb s "")
  | VList items => match items with [] => false | _ :: _ => true end
  | VDict entries => match entries with [] => false | _ :: _ => true end
  end.

Definition type_name (v : pyval) : string :=
  match v with
  | VNone => "NoneType"
  | VBool _ => "bool"
  | VInt _ => "int"
  | VStr _ => "str"
  | VList _ => "list"
  | VDict _ => "dict"
  end.

(** ** Exceptions and results *)

Inductive exn :=
| RevisionSuccess
| UnknownRevisionError (revision : string)
| ParseError (line : string)
| AttributeError (type attr : string)
| TypeError (msg : string)
| KeyError (key : string)
| IndexError (msg : string)
| RuntimeError (msg : string)
| ToolError (msg : string).

Inductive result (A : Type) :=
| Ok (a : A)
| Err (e : exn).
Arguments Ok {A} a.
Arguments Err {A} e.

Definition is_ok {A} (r : result A) : bool :=
  match r with Ok _ => true | Err _ => false end.

(** ** The state-and-exception monad

    An exception keeps the state reached when it was raised: what was done
    before a failure stays done. *)

Definition St (S A : Type) : Type := S -> result A * S.

Definition ret {S A} (a : A) : St S A := fun s => (Ok a, s).

Definition raise {S A} (e : exn) : St S A := fun s => (Err e, s).

Definition bind {S A B} (m : St S A) (k : A -> St S B) : St S B :=
  fun s =>
    match m s with
    | (Ok a, s') => k a s'
    | (Err e, s') => (Err e, s')
    end.

Definition lift_result {S A} (r : result A) : St S A := fun s => (r, s).

(** [try: m except RevisionSuccess: pass] followed by falling off the end of
    the function: the handler yields [None]. *)
Definition try_except_RevisionSuccess {S} (m : St S pyval) : St S pyval :=
  fun s =>
    match m s with
    | (Err RevisionSuccess, s') => (Ok VNone, s')
    | other => other
    end.

Declare Scope py_scope.
Delimit Scope py_scope with py.
Notation "'let*' x ':=' c 'in' k" := (bind c (fun x => k))
  (at level 10, x name, c at level 100, k at level 200) : py_scope.
Notation "c ;; k" := (bind c (fun _ => k))
  (at level 100, k at level 200, right associativity) : py_scope.
Open Scope py_scope.

(** ** [str.strip()]

    A character is a code point below 256; the white space of [str.isspace]
    in that range is TAB, LF, VT, FF, CR, FS, GS, RS, US, SPACE, NEL and
    NBSP. *)

Definition isspace (c : ascii) : bool :=
  let n := nat_of_ascii c in
  (Nat.leb 9 n && Nat.leb n 13) || (Nat.leb 28 n && Nat.leb n 32)
  || Nat.eqb n 133 || Nat.eqb n 160.

Fixpoint lstrip_chars (l : list ascii) : list ascii :=
  match l with
  | c :: rest => if isspace c then lstrip_chars rest else l
  | [] => []
  end.

Definition strip_chars (l : list ascii) : list ascii :=
  rev (lstrip_chars (rev (lstrip_chars l))).

Definition strip (s : string) : string :=
  string_of_list_ascii (strip_chars (list_ascii_of_string s)).

(** What "surrounding whitespace stripped" says: [stripped] is [original]
    without a run of white space at its start and one at its end, and
    neither begins nor ends with white space. *)
Definition surrounding_whitespace_stripped (original stripped : string) : Prop :=
  exists before after : list ascii,
    list_ascii_of_string original = before ++ list_ascii_of_string stripped ++ after
    /\ forallb isspace before = true
    /\ forallb isspace after = true
    /\ (forall c, head (list_ascii_of_string stripped) = Some c -> isspace c = false)
    /\ (forall c, last (list_ascii_of_string stripped) = Some c -> isspace c = false).

(** ** The collaborators' interfaces *)

(** The arguments alembic passes to a [process_revision_directives] hook. *)
Record directive_args := DirectiveArgs {
  da_context : pyval;
  da_revision : pyval;
  da_directives : pyval
}.

(** A callable [(context, revision, directives) -> ...] acting on a state. *)
Definition callback (S : Type) : Type := directive_args -> St S pyval.

(** The configuration dictionary, as far as the runner reads it:
    [cfg_revision_upgrade_data] is the value under the key
    ["revision_upgrade_data"], [None] when the key is absent. *)
Record Config := MkConfig {
  cfg_revision_upgrade_data : option (gmap string pyval);
  cfg_options : list (string * pyval)
}.

(** [pytest_alembic.history.AlembicHistory], imported by the runner. *)
Class HistoryOps (History : Type) := {
  parse : list string -> result History;
  revision_range : History -> string -> option string -> result (list string);
  previous_revision : History -> string -> result string;
  next_revision : History -> string -> result (option string);
  validate_revision : History -> string -> result unit
}.

(** [pytest_alembic.executor]: [CommandExecutor] and [ConnectionExecutor]. *)
Record Executors (World Engine CommandExecutor ConnectionExecutor : Type) := {
  CommandExecutor_from_config : Config -> St World CommandExecutor;
  configure : CommandExecutor -> Engine -> St World pyval;
  run_command :
    CommandExecutor -> string -> list pyval ->
    option (callback World) -> list (string * pyval) -> St World pyval;
  ConnectionExecutor_new : Engine -> St World ConnectionExecutor;
  table_insert : ConnectionExecutor -> string -> pyval -> St World pyval;
  connection_call : ConnectionExecutor -> pyval -> pyval -> pyval -> St World pyval
}.
Arguments CommandExecutor_from_config {World Engine CommandExecutor ConnectionExecutor}.
Arguments configure {World Engine CommandExecutor ConnectionExecutor}.
Arguments run_command {World Engine CommandExecutor ConnectionExecutor}.
Arguments ConnectionExecutor_new {World Engine CommandExecutor ConnectionExecutor}.
Arguments table_insert {World Engine CommandExecutor ConnectionExecutor}.
Arguments connection_call {World Engine CommandExecutor ConnectionExecutor}.

(** ** [RevisionSuccess.process_revision_directives] (lines 150-161)

    [fn] is [None] or a function; a function object is true in [if fn:]. *)

Definition process_revision_directives {S} (fn : option (callback S)) : callback S :=
  fun args =>
    match fn with
    | Some f => f args ;; raise RevisionSuccess
    | None => raise RevisionSuccess
    end.

(** A callback instrumented with a log of the arguments of each of its
    calls, to count them. *)
Definition logged {S} (fn : callback S) : callback (S * list directive_args) :=
  fun args st =>
    let '(r, s') := fn args (fst st) in (r, (s', snd st ++ [args])).

(** ** Reading the results of the command executor *)

(** [tuple(raw_history)], whose items [AlembicHistory.parse] reads as lines
    of text: a list gives its items, a string its characters and a dict its
    keys; the other values are not iterable. *)
Fixpoint lines_of_items (items : list pyval) : result (list string) :=
  match items with
  | [] => Ok []
  | VStr line :: rest =>
      match lines_of_items rest with
      | Ok lines => Ok (line :: lines)
      | Err e => Err e
      end
  | other :: _ => Err (TypeError ("expected a line of text, got " +:+ type_name other))
  end.

Definition tuple_lines (raw : pyval) : result (list string) :=
  match raw with
  | VList items => lines_of_items items
  | VStr s => Ok (map (fun c => String c EmptyString) (list_ascii_of_string s))
  | VDict entries => Ok (map fst entries)
  | other => Err (TypeError ("'" +:+ type_name other +:+ "' object is not iterable"))
  end.

(** [x[0]] *)
Definition getitem0 (x : pyval) : result pyval :=
  match x with
  | VList (first :: _) => Ok first
  | VList [] => Err (IndexError "list index out of range")
  | VStr (String c _) => Ok (VStr (String c EmptyString))
  | VStr EmptyString => Err (IndexError "string index out of range")
  | VDict _ => Err (KeyError "0")
  | other => Err (TypeError ("'" +:+ type_name other +:+ "' object is not subscriptable"))
  end.

(** [x.strip()] *)
Definition str_strip (x : pyval) : result string :=
  match x with
  | VStr s => Ok (strip s)
  | other => Err (AttributeError (type_name other) "strip")
  end.

(** [for x in l: body(x)] *)
Fixpoint for_each {S A} (l : list A) (body : A -> St S unit) : St S unit :=
  match l with
  | [] => ret tt
  | x :: rest => body x ;; for_each rest body
  end.

(** The names bound on a [MigrationContext] instance: the fields of the
    dataclass, then the methods and properties of the class body in source
    order. *)
Definition MigrationContext_attributes : list string :=
  [ "command_executor"; "revision_upgrade_data"; "connection_executor";
    "from_config"; "generate_revision"; "history"; "heads"; "current";
    "raw_command"; "managed_upgrade"; "migrate_up_before"; "migrate_up_to";
    "migrate_up_one"; "migrate_down_before"; "migrate_down_to";
    "migrate_down_one"; "roundtrip_next_revision"; "insert_into" ].

(** ** The runner *)

Section Runner.
Context {World Engine CommandExecutor ConnectionExecutor History : Type}.
Context `{HistOps : HistoryOps History}.
Variable exec : Executors World Engine CommandExecutor ConnectionExecutor.

(** The calls made on the collaborators. *)
Inductive event :=
| EvFromConfig (config : Config)
| EvConfigure (connection : Engine)
| EvConnectionExecutor (engine : Engine)
| EvRunCommand (name : string) (args : list pyval) (kwargs : list (string * pyval))
| EvTableInsert (revision : string) (data : pyval)
| EvConnectionCall (revision tablename data : pyval).

Record Env := MkEnv {
  world : World;
  trace : list event
}.

(** lines 28-35 *)
Record MigrationContext := MkMigrationContext {
  command_executor : CommandExecutor;
  revision_upgrade_data : gmap string pyval;
  connection_executor : option ConnectionExecutor
}.

Record RState := MkRState {
  self : MigrationContext;
  env : Env
}.

(** A call on a collaborator: recorded, then answered by the collaborator. *)
Definition external {A} (ev : event) (call : St World A) : St Env A :=
  fun e =>
    let '(r, w) := call (world e) in
    (r, {| world := w; trace := trace e ++ [ev] |}).

Definition in_env {A} (m : St Env A) : St RState A :=
  fun s =>
    let '(r, e) := m (env s) in
    (r, {| self := self s; env := e |}).

Definition get_self : St RState MigrationContext :=
  fun s => (Ok (self s), s).

(** [self.<name>] *)
Definition getattr_self (name : string) : St RState unit :=
  if bool_decide (name ∈ MigrationContext_attributes) then ret tt
  else raise (AttributeError "MigrationContext" name).

(** lines 37-42 *)
Definition MigrationContext_from_config
    (config : Config) (command_executor : CommandExecutor) : MigrationContext :=
  {| command_executor := command_executor;
     revision_upgrade_data := default ∅ (cfg_revision_upgrade_data config);
     connection_executor := None |}.

(** [self.command_executor.run_command(name, *args, **kwargs)] *)
Definition self_run_command (name : string) (args : list pyval)
    (hook : option (callback World)) (kwargs : list (string * pyval)) : St RState pyval :=
  let* me := get_self in
  in_env (external (EvRunCommand name args kwargs)
            (run_command exec (command_executor me) name args hook kwargs)).

(** lines 44-57 *)
Definition generate_revision
    (fn : option (callback World)) (kwargs : list (string * pyval)) : St RState pyval :=
  let fn := process_revision_directives fn in
  try_except_RevisionSuccess (self_run_command "revision" [] (Some fn) kwargs).

(** lines 59-64 *)
Definition history : St RState History :=
  let* raw_history := self_run_command "history" [] None [] in
  let* lines := lift_result (tuple_lines raw_history) in
  lift_result (parse lines).

(** lines 66-70 *)
Definition heads : St RState pyval :=
  self_run_command "heads" [] None [].

(** lines 72-79 *)
Definition current : St RState string :=
  let* current := self_run_command "current" [] None [] in
  if truthy current then
    let* first := lift_result (getitem0 current) in
    lift_result (str_strip first)
  else ret "base".

(** lines 81-84 *)
Definition raw_command (name : string) (args : list pyval)
    (kwargs : list (string * pyval)) : St RState pyval :=
  self_run_command name args None kwargs.

(** [self.connection_executor.table_insert(revision, data)] *)
Definition self_table_insert (revision : string) (data : pyval) : St RState pyval :=
  let* me := get_self in
  match connection_executor me with
  | None => raise (AttributeError "NoneType" "table_insert")
  | Some ce =>
      in_env (external (EvTableInsert revision data) (table_insert exec ce revision data))
  end.

(** The body of the loop of [managed_upgrade], lines 89-92. *)
Definition upgrade_step (next_revision : string) : St RState unit :=
  let* me := get_self in
  let upgrade_data := default VNone (revision_upgrade_data me !! next_revision) in
  (if truthy upgrade_data
   then self_table_insert next_revision upgrade_data ;; ret tt
   else ret tt) ;;
  raw_command "upgrade" [VStr next_revision] [] ;;
  ret tt.

(** lines 86-92; [dest_revision] is [None] when [migrate_up_one] passes on
    the [None] of [next_revision]. *)
Definition managed_upgrade (dest_revision : option string) : St RState unit :=
  let* current := current in
  let* h := history in
  let* range := lift_result (revision_range h current dest_revision) in
  for_each range upgrade_step.

(** lines 94-98 *)
Definition migrate_up_before (revision : string) : St RState unit :=
  let* h := history in
  let* preceeding_revision := lift_result (previous_revision h revision) in
  managed_upgrade (Some preceeding_revision).

(** lines 100-103 *)
Definition migrate_up_to (revision : string) : St RState unit :=
  managed_upgrade (Some revision).

(** lines 105-109: [self.history] is evaluated before the argument
    [self.current]. *)
Definition migrate_up_one : St RState unit :=
  let* h := history in
  let* current := current in
  let* revision := lift_result (next_revision h current) in
  managed_upgrade revision.

(** No line of the source defines [get_hash_before]; what it would return
    is left open.  Its name is looked up on [self] before it is called. *)
Variable get_hash_before : option string -> St RState pyval.

(** lines 111-115 *)
Definition migrate_down_before (revision : string) : St RState unit :=
  let* h := history in
  let* next_revision := lift_result (next_revision h revision) in
  getattr_self "get_hash_before" ;;
  let* target := get_hash_before next_revision in
  raw_command "downgrade" [target] [] ;;
  ret tt.

(** lines 117-121 *)
Definition migrate_down_to (revision : string) : St RState unit :=
  let* h := history in
  lift_result (validate_revision h revision) ;;
  raw_command "downgrade" [VStr revision] [] ;;
  ret tt.

(** lines 123-126 *)
Definition migrate_down_one : St RState unit :=
  raw_command "downgrade" [VStr "-1"] [] ;;
  ret tt.

(** lines 128-135 *)
Definition roundtrip_next_revision : St RState unit :=
  migrate_up_one ;;
  migrate_down_one ;;
  migrate_up_one.

(** lines 137-140: the callee [self.connection_executor] is evaluated, then
    the argument [self.current], then the call is made. *)
Definition insert_into (table data : pyval) : St RState pyval :=
  let* me := get_self in
  let callee := connection_executor me in
  let* revision := current in
  match callee with
  | None => raise (TypeError "'NoneType' object is not callable")
  | Some ce =>
      in_env (external (EvConnectionCall (VStr revision) table data)
                (connection_call exec ce (VStr revision) table data))
  end.

(** *** The context manager (lines 10-25) *)

(** A generator that has run up to a [yield] or to its end.  [resume] is
    the code after the [yield]; [throw] is that code when an exception is
    raised at the [yield]. *)
Inductive generator (Y : Type) :=
| Yielded (value : Y) (resume : St Env (generator Y)) (throw : exn -> St Env (generator Y))
| Returned.
Arguments Yielded {Y} value resume throw.
Arguments Returned {Y}.

(** Nothing follows either [yield], and no [try] encloses them: resuming
    the generator ends it, and an exception thrown in leaves it as it
    came. *)
Definition runner (config : Config) (engine : option Engine)
    : St Env (generator MigrationContext) :=
  let* command_executor :=
    external (EvFromConfig config) (CommandExecutor_from_config exec config) in
  let migration_context := MigrationContext_from_config config command_executor in
  match engine with
  | Some engine =>
      external (EvConfigure engine) (configure exec command_executor engine) ;;
      let* ce := external (EvConnectionExecutor engine) (ConnectionExecutor_new exec engine) in
      let migration_context :=
        {| command_executor := command_executor;
           revision_upgrade_data := revision_upgrade_data migration_context;
           connection_executor := Some ce |} in
      ret (Yielded migration_context (ret Returned) (fun e => raise e))
  | None =>
      ret (Yielded migration_context (ret Returned) (fun e => raise e))
  end.

(** [with cm as y: body(y)] for a [contextlib.contextmanager] generator:
    [__enter__] runs it to its [yield]; [__exit__] resumes it when the body
    returned and throws the body's exception into it otherwise. *)
Definition with_context {Y} (cm : St Env (generator Y)) (body : Y -> St Env unit)
    : St Env unit :=
  let* g := cm in
  match g with
  | Returned => raise (RuntimeError "generator didn't yield")
  | Yielded y resume throw =>
      fun e =>
        match body y e with
        | (Ok _, e') =>
            (let* g' := resume in
             match g' with
             | Returned => ret tt
             | Yielded _ _ _ => raise (RuntimeError "generator didn't stop")
             end) e'
        | (Err x, e') =>
            (let* g' := throw x in
             match g' with
             | Returned => ret tt
             | Yielded _ _ _ => raise (RuntimeError "generator didn't stop after throw()")
             end) e'
        end
  end.

(** The body of a [with runner(...) as ctx:] block calling methods of [ctx]. *)
Definition on_context {A} (m : St RState A) (ctx : MigrationContext) : St Env A :=
  fun e =>
    let '(r, s) := m {| self := ctx; env := e |} in
    (r, env s).

(** *** The vocabulary of the properties *)

(** The state after one more call on a collaborator. *)
Definition after_call (s : RState) (ev : event) (w : World) : RState :=
  {| self := self s; env := {| world := w; trace := trace (env s) ++ [ev] |} |}.

(** An operation that leaves the fields of [self] as they are. *)
Definition keeps_self {A} (m : St RState A) : Prop :=
  forall s, self (snd (m s)) = self s.

(** The seed data registered for a revision: the payload found under that
    revision identifier in the map, when it holds data. *)
Definition seed_data (rud : gmap string pyval) (revision : string) : option pyval :=
  match rud !! revision with
  | Some data => if truthy data then Some data else None
  | None => None
  end.

Definition upgrade_command (revision : string) : event :=
  EvRunCommand "upgrade" [VStr revision] [].

Definition downgrade_command (revision : string) : event :=
  EvRunCommand "downgrade" [VStr revision] [].

(** What one revision of the range asks of the collaborators. *)
Definition upgrade_events (rud : gmap string pyval) (revision : string) : list event :=
  match seed_data rud revision with
  | Some data => [EvTableInsert revision data; upgrade_command revision]
  | None => [upgrade_command revision]
  end.

Definition upgrade_plan (rud : gmap string pyval) (range : list string) : list event :=
  flat_map (upgrade_events rud) range.

(** The "upgrade" command to a revision and nothing else. *)
Definition just_upgrade (revision : string) : St RState unit :=
  raw_command "upgrade" [VStr revision] [] ;; ret tt.


(** Two states that differ at most in registrations holding no data. *)
Definition alike (s s' : RState) : Prop :=
  env s = env s'
  /\ command_executor (self s) = command_executor (self s')
  /\ connection_executor (self s) = connection_executor (self s')
  /\ forall r, seed_data (revision_upgrade_data (self s)) r
               = seed_data (revision_upgrade_data (self s')) r.

(** An operation that cannot tell such states apart. *)
Definition same_run {A} (m : St RState A) : Prop :=
  forall s s', alike s s' -> fst (m s) = fst (m s') /\ alike (snd (m s)) (snd (m s')).

(** The operations of the runner, with their arguments. *)
Inductive operation :=
| OpGenerateRevision (fn : option (callback World)) (kwargs : list (string * pyval))
| OpHistory
| OpHeads
| OpCurrent
| OpRawCommand (name : string) (args : list pyval) (kwargs : list (string * pyval))
| OpManagedUpgrade (dest_revision : option string)
| OpMigrateUpBefore (revision : string)
| OpMigrateUpTo (revision : string)
| OpMigrateUpOne
| OpMigrateDownBefore (revision : string)
| OpMigrateDownTo (revision : string)
| OpMigrateDownOne
| OpRoundtripNextRevision
| OpInsertInto (table data : pyval).

(** The state an operation leaves, whether it returns or raises. *)
Definition after_operation (s : RState) (op : operation) : RState :=
  match op with
  | OpGenerateRevision fn kwargs => snd (generate_revision fn kwargs s)
  | OpHistory => snd (history s)
  | OpHeads => snd (heads s)
  | OpCurrent => snd (current s)
  | OpRawCommand name args kwargs => snd (raw_command name args kwargs s)
  | OpManagedUpgrade dest => snd (managed_upgrade dest s)
  | OpMigrateUpBefore revision => snd (migrate_up_before revision s)
  | OpMigrateUpTo revision => snd (migrate_up_to revision s)
  | OpMigrateUpOne => snd (migrate_up_one s)
  | OpMigrateDownBefore revision => snd (migrate_down_before revision s)
  | OpMigrateDownTo revision => snd (migrate_down_to revision s)
  | OpMigrateDownOne => snd (migrate_down_one s)
  | OpRoundtripNextRevision => snd (roundtrip_next_revision s)
  | OpInsertInto table data => snd (insert_into table data s)
  end.

Definition after_operations (s : RState) (ops : list operation) : RState :=
  fold_left after_operation ops s.

(** The calls [runner] makes on the collaborators up to its [yield]. *)
Definition entry_events (config : Config) (engine : option Engine) : list event :=
  EvFromConfig config ::
  match engine with
  | Some engine => [EvConfigure engine; EvConnectionExecutor engine]
  | None => []
  end.

(** What a release at context exit asks of the calls of a [with] block:
    past the calls of the entry and those of the body, one more call, at
    least, is made on a collaborator. *)
Definition released_at_exit (entry body whole : list event) : Prop :=
  exists release rest, whole = entry ++ body ++ release :: rest.

(** *** The calls an operation may make *)

Definition current_query : event := EvRunCommand "current" [] [].

Definition history_query : event := EvRunCommand "history" [] [].

(** [downgrade -1], the command of [migrate_down_one]. *)
Definition step_back : event := EvRunCommand "downgrade" [VStr "-1"] [].

(** The calls of an upgrade: the two queries, a seed insert, an "upgrade"
    command. *)
Definition upward_event (ev : event) : Prop :=
  match ev with
  | EvRunCommand name _ _ => name = "current" \/ name = "history" \/ name = "upgrade"
  | EvTableInsert _ _ => True
  | _ => False
  end.

(** The calls of a downgrade: the "history" query, a "downgrade" command. *)
Definition downward_event (ev : event) : Prop :=
  match ev with
  | EvRunCommand name _ _ => name = "history" \/ name = "downgrade"
  | _ => False
  end.

(** From every state, the calls [m] adds to the trace all satisfy [P]. *)
Definition issues_only (P : event -> Prop) {A} (m : St RState A) : Prop :=
  forall s, exists evs,
    trace (env (snd (m s))) = trace (env s) ++ evs /\ Forall P evs.

(** The revisions of the "upgrade" commands among some calls, in order. *)
Definition upgrade_targets (evs : list event) : list string :=
  flat_map (fun ev =>
              match ev with
              | EvRunCommand name [VStr revision] [] =>
                  if String.eqb name "upgrade" then [revision] else []
              | _ => []
              end) evs.

(** The revisions of the seed inserts among some calls, in order. *)
Definition inserted_revisions (evs : list event) : list string :=
  flat_map (fun ev =>
              match ev with
              | EvTableInsert revision _ => [revision]
              | _ => []
              end) evs.

(** The revisions of a range that have seed data registered. *)
Definition seeded_revisions (rud : gmap string pyval) (range : list string) : list string :=
  List.filter (fun r => match seed_data rud r with Some _ => true | None => false end) range.

(** What one revision of the range asks of the collaborators, as calls run
    on the world itself: with seed data registered, [table_insert] on the
    connection executor and, once it has returned, the "upgrade" command on
    the command executor; the "upgrade" command alone otherwise.  Without a
    connection executor there is nothing to insert with. *)
Definition upgrade_calls (me : MigrationContext) (revision : string) : St World unit :=
  match seed_data (revision_upgrade_data me) revision with
  | Some data =>
      match connection_executor me with
      | Some ce =>
          table_insert exec ce revision data ;;
          run_command exec (command_executor me) "upgrade" [VStr revision] None [] ;;
          ret tt
      | None => raise (AttributeError "NoneType" "table_insert")
      end
  | None =>
      run_command exec (command_executor me) "upgrade" [VStr revision] None [] ;;
      ret tt
  end.

(** The same for a whole range, in order, stopping at the first call that
    raises. *)
Definition upgrade_plan_calls (me : MigrationContext) (range : list string)
    : St World unit :=
  for_each range (upgrade_calls me).

End Runner.

Arguments Yielded {World Engine Y} value resume throw.
Arguments Returned {World Engine Y}.

(** ** [AlembicHistory]

    [pytest_alembic/history.py] is imported by the runner; its text is not
    part of the sources at hand. *)

Module AlembicHistory.

(** Modelled from the spec: the History value type of
    [pytest_alembic.history] is missing; it is "a sequence of (revision,
    parent) pairs", the parent being none for a root.  The listing is kept
    in the order of the raw lines, newest first. *)
Record revision_record := MkRevision {
  rev_id : string;
  rev_parent : option string
}.

Definition t : Type := list revision_record.

(** The text before and after the first [" -> "] of a line. *)
Fixpoint split_arrow (line : string) : option (string * string) :=
  match line with
  | EmptyString => None
  | String c rest =>
      if String.prefix " -> " line
      then Some (EmptyString, substring 4 (String.length line - 4) line)
      else match split_arrow rest with
           | Some (before, after) => Some (String c before, after)
           | None => None
           end
  end.

(** Modelled from the spec: [AlembicHistory.parse] is missing; a line has
    the shape "revision -> parent", the parent ["base"] marking a root, and
    any other line is a [ParseError]. *)
Definition parse_line (line : string) : result revision_record :=
  match split_arrow line with
  | Some (revision, parent) =>
      if String.eqb revision "" || String.eqb parent "" then Err (ParseError line)
      else Ok {| rev_id := revision;
                 rev_parent := if String.eqb parent "base" then None else Some parent |}
  | None => Err (ParseError line)
  end.

Fixpoint parse (raw_lines : list string) : result t :=
  match raw_lines with
  | [] => Ok []
  | line :: rest =>
      match parse_line line with
      | Ok r => match parse rest with
                | Ok h => Ok (r :: h)
                | Err e => Err e
                end
      | Err e => Err e
      end
  end.

Definition lookup (h : t) (revision : string) : option revision_record :=
  find (fun r => String.eqb (rev_id r) revision) h.

Definition parent_name (r : revision_record) : string :=
  default "base" (rev_parent r).

Definition known (h : t) (revision : string) : bool :=
  String.eqb revision "base" || bool_decide (is_Some (lookup h revision)).

(** Modelled from the spec: [validate_revision] is missing; it "fails with
    UnknownRevisionError if not present (and not "base")". *)
Definition validate_revision (h : t) (revision : string) : result unit :=
  if known h revision then Ok tt else Err (UnknownRevisionError revision).

(** Modelled from the spec: [previous_revision] is missing; it is "the
    immediate parent; "base" if revision is a root". *)
Definition previous_revision (h : t) (revision : string) : result string :=
  if String.eqb revision "base" then Ok "base"
  else match lookup h revision with
       | Some r => Ok (parent_name r)
       | None => Err (UnknownRevisionError revision)
       end.

(** Modelled from the spec: [next_revision] is missing; it is "the
    immediate child in the upgrade direction; None if revision is already
    the newest", and for ["base"] "the earliest root revision". *)
Definition next_revision (h : t) (revision : string) : result (option string) :=
  if known h revision
  then Ok (rev_id <$> find (fun r => String.eqb (parent_name r) revision) (rev h))
  else Err (UnknownRevisionError revision).

(** The revisions from [cursor] back to, and excluding, [start], walking
    the parent links; oldest first. *)
Fixpoint walk_back (fuel : nat) (h : t) (start cursor : string) (acc : list string)
    : result (list string) :=
  if String.eqb cursor start then Ok acc
  else match fuel with
       | O => Err (UnknownRevisionError start)
       | S fuel' =>
           match lookup h cursor with
           | Some r => walk_back fuel' h start (parent_name r) (cursor :: acc)
           | None => Err (UnknownRevisionError start)
           end
       end.

(** Modelled from the spec: [revision_range] is missing; it "returns every
    revision strictly after start up to and including end, in upgrade
    order", empty when they are equal, and walks "strictly along ancestor
    links"; an unknown end or start is an [UnknownRevisionError]. *)
Definition revision_range (h : t) (start : string) (end_ : option string)
    : result (list string) :=
  match end_ with
  | None => Err (UnknownRevisionError "None")
  | Some end_ =>
      if negb (known h start) then Err (UnknownRevisionError start)
      else if negb (known h end_) then Err (UnknownRevisionError end_)
      else walk_back (S (List.length h)) h start end_ []
  end.

End AlembicHistory.

#[export] Instance AlembicHistory_ops : HistoryOps AlembicHistory.t := {
  parse := AlembicHistory.parse;
  revision_range := AlembicHistory.revision_range;
  previous_revision := AlembicHistory.previous_revision;
  next_revision := AlembicHistory.next_revision;
  validate_revision := AlembicHistory.validate_revision
}.

(** ** A small in-memory executor

    A stand-in for alembic used to run the runner on concrete inputs: the
    world holds the raw history listing, the output of "current", the rows
    inserted so far and the directives handed to hooks. *)

Module Demo.

Record demo_world := MkWorld {
  dw_lines : list string;
  dw_current : list string;
  dw_rows : list (string * pyval);
  dw_written : list string
}.

Definition set_current (cur : list string) (w : demo_world) : demo_world :=
  {| dw_lines := dw_lines w; dw_current := cur;
     dw_rows := dw_rows w; dw_written := dw_written w |}.

Definition add_row (revision : string) (data : pyval) (w : demo_world) : demo_world :=
  {| dw_lines := dw_lines w; dw_current := dw_current w;
     dw_rows := dw_rows w ++ [(revision, data)]; dw_written := dw_written w |}.

Definition write_script (name : string) (w : demo_world) : demo_world :=
  {| dw_lines := dw_lines w; dw_current := dw_current w;
     dw_rows := dw_rows w; dw_written := dw_written w ++ [name] |}.

Definition demo_args : directive_args :=
  {| da_context := VStr "context"; da_revision := VStr "head";
     da_directives := VList [VStr "script"] |}.

Definition demo_run_command (_ : unit) (name : string) (args : list pyval)
    (hook : option (callback demo_world)) (kwargs : list (string * pyval))
    : St demo_world pyval :=
  if String.eqb name "history" then
    fun w => (Ok (VList (VStr <$> dw_lines w)), w)
  else if String.eqb name "current" then
    fun w => (Ok (VList (VStr <$> dw_current w)), w)
  else if String.eqb name "heads" then
    fun w => (Ok (VList (VStr <$> take 1 (dw_lines w))), w)
  else if String.eqb name "upgrade" then
    match args with
    | [VStr r] => fun w => (Ok VNone, set_current [r] w)
    | _ => raise (ToolError "upgrade: bad arguments")
    end
  else if String.eqb name "downgrade" then
    match args with
    | [VStr r] =>
        fun w => (Ok VNone, set_current (if String.eqb r "base" then [] else [r]) w)
    | _ => raise (ToolError "downgrade: bad arguments")
    end
  else if String.eqb name "revision" then
    match hook with
    | Some hook => hook demo_args ;; fun w => (Ok (VStr "script"), write_script "script" w)
    | None => fun w => (Ok (VStr "script"), write_script "script" w)
    end
  else raise (ToolError "unknown command").

Definition demo_exec : Executors demo_world unit unit unit := {|
  CommandExecutor_from_config := fun _ => ret tt;
  configure := fun _ _ => ret VNone;
  run_command := demo_run_command;
  ConnectionExecutor_new := fun _ => ret tt;
  table_insert := fun _ revision data w => (Ok VNone, add_row revision data w);
  connection_call := fun _ revision tablename data w =>
    (Ok VNone, add_row (match revision with VStr r => r | _ => "" end) data w)
|}.

Definition demo_lines : list string := ["R2 -> R1"; "R1 -> base"].

Definition world0 : demo_world :=
  {| dw_lines := demo_lines; dw_current := []; dw_rows := []; dw_written := [] |}.

Definition seeds : gmap string pyval :=
  <["R2" := VList [VDict [("id", VInt 1)]]]> (<["R1" := VList []]> ∅).

Definition ctx0 (conn : option unit) : MigrationContext :=
  {| command_executor := tt; revision_upgrade_data := seeds;
     connection_executor := conn |}.

Definition state0 (conn : option unit) : RState (World := demo_world) (Engine := unit) :=
  {| self := ctx0 conn; env := {| world := world0; trace := [] |} |}.

Definition config : Config :=
  {| cfg_revision_upgrade_data := Some seeds; cfg_options := [] |}.

Definition env0 : Env (World := demo_world) (Engine := unit) :=
  {| world := world0; trace := [] |}.

(** The history the listing parses to. *)
Definition history0 : AlembicHistory.t :=
  [ {| AlembicHistory.rev_id := "R2"; AlembicHistory.rev_parent := Some "R1" |};
    {| AlembicHistory.rev_id := "R1"; AlembicHistory.rev_parent := None |} ].

(** The states after the "current" and then the "history" query. *)
Definition state_current (conn : option unit) : RState :=
  after_call (state0 conn) (EvRunCommand "current" [] []) world0.

Definition state_history (conn : option unit) : RState :=
  after_call (state_current conn) (EvRunCommand "history" [] []) world0.

(** The state after the "history" query alone. *)
Definition state_history_only (conn : option unit) : RState :=
  after_call (state0 conn) (EvRunCommand "history" [] []) world0.

(** A world whose "current" output has white space around the revision. *)
Definition padded_line : string :=
  String (ascii_of_nat 9) ("  R1 (head) " +:+ String (ascii_of_nat 10) EmptyString).

Definition state_padded : RState (World := demo_world) (Engine := unit) :=
  {| self := ctx0 None;
     env := {| world := set_current [padded_line] world0; trace := [] |} |}.

End Demo.

(** ** An executor that fails

    The in-memory executor, except that configuring the command executor
    with a connection and inserting rows both raise. *)

Module Faulty.

Definition faulty_exec : Executors Demo.demo_world unit unit unit := {|
  CommandExecutor_from_config := fun _ => ret tt;
  configure := fun _ _ => raise (ToolError "cannot connect");
  run_command := Demo.demo_run_command;
  ConnectionExecutor_new := fun _ => ret tt;
  table_insert := fun _ _ _ => raise (ToolError "no such table");
  connection_call := fun _ _ _ _ => raise (ToolError "no such table")
|}.

(** Data registered for the first revision of the listing. *)
Definition seeds : gmap string pyval :=
  <["R1" := VList [VDict [("id", VInt 7)]]]> ∅.

Definition state0 (conn : option unit)
    : RState (World := Demo.demo_world) (Engine := unit) :=
  {| self := {| command_executor := tt; revision_upgrade_data := seeds;
                connection_executor := conn |};
     env := Demo.env0 |}.

Definition state_current (conn : option unit) : RState :=
  after_call (state0 conn) (EvRunCommand "current" [] []) Demo.world0.

Definition state_history (conn : option unit) : RState :=
  after_call (state_current conn) (EvRunCommand "history" [] []) Demo.world0.

End Faulty.

(** ** The in-memory executor at revision R2 *)

Module AtHead.

Definition world2 : Demo.demo_world := Demo.set_current ["R2"] Demo.world0.

Definition state0 : RState (World := Demo.demo_world) (Engine := unit) :=
  {| self := Demo.ctx0 (Some tt); env := {| world := world2; trace := [] |} |}.

Definition state_current : RState :=
  after_call state0 (EvRunCommand "current" [] []) world2.

Definition state_history : RState :=
  after_call state_current (EvRunCommand "history" [] []) world2.

(** A callback that leaves a mark in the world. *)
Definition marking_callback : callback Demo.demo_world :=
  fun _ w => (Ok (VInt 1), Demo.write_script "seen by the callback" w).

(** What the "revision" command of the in-memory executor does after the
    hook. *)
Definition write_the_file : St Demo.demo_world pyval :=
  fun w => (Ok (VStr "script"), Demo.write_script "script" w).

End AtHead.

(** ** An executor that understands [downgrade -1]

    The in-memory executor, with the relative target ["-1"] of a downgrade
    resolved to the parent of the current revision in the listing. *)

Module Stepper.




End Stepper.

(** ** The in-memory executor with a listing that is not a history *)

Module Unreadable.

Definition world0 : Demo.demo_world :=
  {| Demo.dw_lines := ["R2 -> R1"; "not a revision line"];
     Demo.dw_current := []; Demo.dw_rows := []; Demo.dw_written := [] |}.

Definition state0 : RState (World := Demo.demo_world) (Engine := unit) :=
  {| self := Demo.ctx0 (Some tt); env := {| world := world0; trace := [] |} |}.

Definition state_history : RState :=
  after_call state0 (EvRunCommand "history" [] []) world0.

End Unreadable.

(** * Properties *)

(** ** The monad *)

Lemma bind_ok {S A B} (m : St S A) (k : A -> St S B) s a s' :
  m s = (Ok a, s') -> bind m k s = k a s'.
Proof. intros Hm. unfold bind. now rewrite Hm. Qed.

Lemma bind_err {S A B} (m : St S A) (k : A -> St S B) s e s' :
  m s = (Err e, s') -> bind m k s = (Err e, s').
Proof. intros Hm. unfold bind. now rewrite Hm. Qed.

(** ** [str.strip()] *)

Lemma lstrip_chars_split (l : list ascii) :
  exists before, l = before ++ lstrip_chars l /\ forallb isspace before = true.
Proof.
  induction l as [|c l IH]; simpl.
  - exists []. split; reflexivity.
  - destruct (isspace c) eqn:Hc.
    + destruct IH as [before [Hl Hb]]. exists (c :: before). simpl.
      rewrite Hc, Hb. split; [now f_equal | reflexivity].
    + exists []. split; reflexivity.
Qed.

Lemma lstrip_chars_head (l : list ascii) c :
  head (lstrip_chars l) = Some c -> isspace c = false.
Proof.
  induction l as [|d l IH]; simpl; [discriminate|].
  destruct (isspace d) eqn:Hd; [exact IH|].
  simpl. intros [= <-]. exact Hd.
Qed.

Lemma lstrip_chars_last (l : list ascii) c :
  last (lstrip_chars l) = Some c -> last l = Some c.
Proof.
  induction l as [|d l IH]; simpl; [discriminate|].
  destruct (isspace d) eqn:Hd; [|tauto].
  intros Hc. specialize (IH Hc). destruct l; [discriminate | exact IH].
Qed.

Lemma head_rev {A} (l : list A) : head (rev l) = last l.
Proof. rewrite rev_alt. apply head_reverse. Qed.

Lemma last_rev {A} (l : list A) : last (rev l) = head l.
Proof. rewrite rev_alt. apply last_reverse. Qed.

Lemma forallb_isspace_rev (l : list ascii) :
  forallb isspace l = true -> forallb isspace (rev l) = true.
Proof.
  intros Hl. apply forallb_forall. intros c Hc.
  rewrite forallb_forall in Hl. apply Hl. now apply in_rev.
Qed.

Lemma strip_chars_spec (l : list ascii) :
  exists before after,
    l = before ++ strip_chars l ++ after
    /\ forallb isspace before = true
    /\ forallb isspace after = true
    /\ (forall c, head (strip_chars l) = Some c -> isspace c = false)
    /\ (forall c, last (strip_chars l) = Some c -> isspace c = false).
Proof.
  unfold strip_chars.
  destruct (lstrip_chars_split l) as [before [Hl Hb]].
  destruct (lstrip_chars_split (rev (lstrip_chars l))) as [tail [Hr Ht]].
  exists before, (rev tail). repeat split.
  - rewrite Hl at 1. f_equal.
    rewrite <- rev_app_distr, <- Hr. now rewrite rev_involutive.
  - exact Hb.
  - now apply forallb_isspace_rev.
  - intros c Hc. rewrite head_rev in Hc.
    apply lstrip_chars_last in Hc. rewrite last_rev in Hc.
    now apply lstrip_chars_head in Hc.
  - intros c Hc. rewrite last_rev in Hc.
    now apply lstrip_chars_head in Hc.
Qed.

Lemma strip_spec (s : string) : surrounding_whitespace_stripped s (strip s).
Proof.
  unfold surrounding_whitespace_stripped, strip.
  rewrite list_ascii_of_string_of_list_ascii.
  apply strip_chars_spec.
Qed.

(** ** The interceptor *)

(** C5. The wrapper built by [RevisionSuccess.process_revision_directives],
    called with [(context, revision, directives)]: with a callback [fn], the
    log of [fn]'s calls grows by exactly one entry, those same arguments, the
    state is the one [fn] leaves, and whatever value [fn] returns the wrapper
    raises [RevisionSuccess] (an exception of [fn] itself is not a return
    value: it passes through); with no callback the wrapper raises
    [RevisionSuccess] at once and touches nothing.  The wrapper never returns
    normally. *)
Theorem process_revision_directives_calls_fn_once_then_raises
    {S} (fn : callback S) (args : directive_args) (s : S) (log : list directive_args) :
  (let '(r, (s', log')) := process_revision_directives (Some (logged fn)) args (s, log) in
   log' = log ++ [args]
   /\ s' = snd (fn args s)
   /\ r = match fst (fn args s) with
          | Ok _ => Err RevisionSuccess
          | Err e => Err e
          end
   /\ is_ok r = false)
  /\ process_revision_directives None args s = (Err RevisionSuccess, s).
Proof.
  split; [|reflexivity].
  unfold process_revision_directives, bind, logged, raise. simpl.
  destruct (fn args s) as [[v|e] s']; simpl; repeat split; reflexivity.
Qed.

Section RunnerFacts.
Context {World Engine CommandExecutor ConnectionExecutor History : Type}.
Context `{HistOps : HistoryOps History}.
Variable exec : Executors World Engine CommandExecutor ConnectionExecutor.

Variable get_hash_before :
  option string -> St (@RState World Engine CommandExecutor ConnectionExecutor) pyval.

Abbreviation RState := (@RState World Engine CommandExecutor ConnectionExecutor).
Abbreviation Env := (@Env World Engine).
Abbreviation keeps_self m :=
  (@keeps_self World Engine CommandExecutor ConnectionExecutor _ m).
Abbreviation same_run m :=
  (@same_run World Engine CommandExecutor ConnectionExecutor _ m).

Lemma self_run_command_eq name args hook kwargs (s : RState) :
  self_run_command exec name args hook kwargs s =
  (fst (run_command exec (command_executor (self s)) name args hook kwargs (world (env s))),
   after_call s (EvRunCommand name args kwargs)
     (snd (run_command exec (command_executor (self s)) name args hook kwargs (world (env s))))).
Proof.
  unfold self_run_command, bind, get_self, in_env, external, after_call. simpl.
  now destruct (run_command _ _ _ _ _ _ _).
Qed.

(** *** [generate_revision] *)

(** C4. [generate_revision] issues the "revision" command with the wrapped
    hook; a [RevisionSuccess] coming out of the command becomes a normal
    return of [None], every other outcome of the command (a value or any
    other exception) is passed on as it is, and so [RevisionSuccess] never
    reaches the caller. *)
Theorem generate_revision_catches_exactly_RevisionSuccess
    (fn : option (callback World)) (kwargs : list (string * pyval)) (s : RState) :
  let out := run_command exec (command_executor (self s)) "revision" []
               (Some (process_revision_directives fn)) kwargs (world (env s)) in
  generate_revision exec fn kwargs s =
    (match fst out with
     | Err RevisionSuccess => Ok VNone
     | Err other => Err other
     | Ok v => Ok v
     end,
     after_call s (EvRunCommand "revision" [] kwargs) (snd out))
  /\ fst (generate_revision exec fn kwargs s) <> Err RevisionSuccess.
Proof.
  intros out. unfold generate_revision, try_except_RevisionSuccess.
  rewrite self_run_command_eq. fold out.
  destruct (fst out) as [v|[]]; simpl; split; congruence.
Qed.

(** *** [current] *)

(** C6. When the "current" command returns the lines [lines], the
    [current] query has issued exactly that one command and returns
    ["base"] for no line, and otherwise the first line stripped of its
    surrounding white space. *)
Theorem current_first_line_stripped_or_base (s : RState) (lines : list string) (w' : World) :
  run_command exec (command_executor (self s)) "current" [] None [] (world (env s))
    = (Ok (VList (VStr <$> lines)), w') ->
  exists revision,
    current exec s = (Ok revision, after_call s (EvRunCommand "current" [] []) w')
    /\ match lines with
       | [] => revision = "base"
       | first :: _ => revision = strip first
                       /\ surrounding_whitespace_stripped first revision
       end.
Proof.
  intros Hcmd. unfold current, bind. rewrite self_run_command_eq, Hcmd. simpl.
  destruct lines as [|first rest]; simpl.
  - exists "base". split; reflexivity.
  - exists (strip first). split; [reflexivity|].
    split; [reflexivity | apply strip_spec].
Qed.

(** *** Operations that leave [self] as it is *)

Lemma keeps_self_ret {A} (a : A) : keeps_self (ret a).
Proof. now intros s. Qed.

Lemma keeps_self_raise {A} (e : exn) : keeps_self (raise (A := A) e).
Proof. now intros s. Qed.

Lemma keeps_self_lift_result {A} (r : result A) : keeps_self (lift_result r).
Proof. now intros s. Qed.

Lemma keeps_self_get_self : keeps_self get_self.
Proof. now intros s. Qed.

Lemma keeps_self_in_env {A} (m : St Env A) : keeps_self (in_env m).
Proof. intros s. unfold in_env. now destruct (m (env s)). Qed.

Lemma keeps_self_bind {A B} (m : St RState A) (k : A -> St RState B) :
  keeps_self m -> (forall a, keeps_self (k a)) -> keeps_self (bind m k).
Proof.
  intros Hm Hk s. unfold bind. specialize (Hm s).
  destruct (m s) as [[a|e] s']; simpl in *; [|exact Hm].
  now rewrite Hk.
Qed.

Lemma keeps_self_try (m : St RState pyval) :
  keeps_self m -> keeps_self (try_except_RevisionSuccess m).
Proof.
  intros Hm s. unfold try_except_RevisionSuccess. specialize (Hm s).
  destruct (m s) as [[a|[]] s']; exact Hm.
Qed.

Lemma keeps_self_for_each {A} (l : list A) (body : A -> St RState unit) :
  (forall a, keeps_self (body a)) -> keeps_self (for_each l body).
Proof.
  intros Hbody. induction l as [|a l IH]; simpl.
  - apply keeps_self_ret.
  - apply keeps_self_bind; [apply Hbody | intros _; exact IH].
Qed.

Create HintDb keeps discriminated.
#[local] Hint Resolve keeps_self_ret keeps_self_raise keeps_self_lift_result
  keeps_self_get_self keeps_self_in_env keeps_self_try : keeps.
#[local] Hint Extern 2 (keeps_self (bind _ _)) =>
  apply keeps_self_bind; [|intros ?] : keeps.
#[local] Hint Extern 2 (keeps_self (for_each _ _)) =>
  apply keeps_self_for_each; intros ? : keeps.
#[local] Hint Extern 3 (keeps_self (if ?b then _ else _)) => destruct b : keeps.
#[local] Hint Extern 3 (keeps_self (match ?o with Some _ => _ | None => _ end)) =>
  destruct o : keeps.

Lemma keeps_self_run_command name args hook kwargs :
  keeps_self (self_run_command exec name args hook kwargs).
Proof. unfold self_run_command. auto with keeps. Qed.
#[local] Hint Resolve keeps_self_run_command : keeps.

Lemma keeps_self_generate_revision fn kwargs :
  keeps_self (generate_revision exec fn kwargs).
Proof. unfold generate_revision. auto with keeps. Qed.

Lemma keeps_self_history : keeps_self (history exec).
Proof. unfold history. auto with keeps. Qed.

Lemma keeps_self_heads : keeps_self (heads exec).
Proof. unfold heads. auto with keeps. Qed.

Lemma keeps_self_current : keeps_self (current exec).
Proof. unfold current. auto 10 with keeps. Qed.

Lemma keeps_self_raw_command name args kwargs :
  keeps_self (raw_command exec name args kwargs).
Proof. unfold raw_command. auto with keeps. Qed.

Lemma keeps_self_table_insert revision data :
  keeps_self (self_table_insert exec revision data).
Proof. unfold self_table_insert. auto with keeps. Qed.
#[local] Hint Resolve keeps_self_history keeps_self_current keeps_self_raw_command
  keeps_self_table_insert : keeps.

Lemma keeps_self_upgrade_step r : keeps_self (upgrade_step exec r).
Proof. unfold upgrade_step. auto 10 with keeps. Qed.
#[local] Hint Resolve keeps_self_upgrade_step : keeps.

Lemma keeps_self_managed_upgrade dest : keeps_self (managed_upgrade exec dest).
Proof. unfold managed_upgrade. auto 10 with keeps. Qed.
#[local] Hint Resolve keeps_self_managed_upgrade : keeps.

Lemma keeps_self_migrate_up_before revision : keeps_self (migrate_up_before exec revision).
Proof. unfold migrate_up_before. auto 10 with keeps. Qed.

Lemma keeps_self_migrate_up_to revision : keeps_self (migrate_up_to exec revision).
Proof. unfold migrate_up_to. auto with keeps. Qed.

Lemma keeps_self_migrate_up_one : keeps_self (migrate_up_one exec).
Proof. unfold migrate_up_one. auto 10 with keeps. Qed.

Lemma keeps_self_migrate_down_to revision : keeps_self (migrate_down_to exec revision).
Proof. unfold migrate_down_to. auto 10 with keeps. Qed.

Lemma keeps_self_migrate_down_one : keeps_self (migrate_down_one exec).
Proof. unfold migrate_down_one. auto 10 with keeps. Qed.
#[local] Hint Resolve keeps_self_migrate_up_one keeps_self_migrate_down_one : keeps.

Lemma keeps_self_roundtrip_next_revision : keeps_self (roundtrip_next_revision exec).
Proof. unfold roundtrip_next_revision. auto 10 with keeps. Qed.

Lemma keeps_self_insert_into table data : keeps_self (insert_into exec table data).
Proof. unfold insert_into. auto 10 with keeps. Qed.

(** *** [migrate_down_before] *)

Lemma getattr_self_get_hash_before :
  getattr_self "get_hash_before"
  = raise (S := RState) (AttributeError "MigrationContext" "get_hash_before").
Proof. reflexivity. Qed.

(** *** [managed_upgrade] *)

Lemma just_upgrade_eq revision (s : RState) :
  just_upgrade exec revision s =
  let out := run_command exec (command_executor (self s)) "upgrade" [VStr revision]
               None [] (world (env s)) in
  (match fst out with Ok _ => Ok tt | Err e => Err e end,
   after_call s (upgrade_command revision) (snd out)).
Proof.
  unfold just_upgrade, raw_command, bind. rewrite self_run_command_eq.
  now destruct (fst (run_command _ _ _ _ _ _ _)).
Qed.

Lemma upgrade_step_unseeded revision (s : RState) :
  seed_data (revision_upgrade_data (self s)) revision = None ->
  upgrade_step exec revision s = just_upgrade exec revision s.
Proof.
  unfold seed_data, upgrade_step, just_upgrade. intros Hseed.
  unfold bind at 1. unfold get_self at 1.
  destruct (revision_upgrade_data (self s) !! revision) as [data|]; simpl.
  - destruct (truthy data); [discriminate | reflexivity].
  - reflexivity.
Qed.

Lemma upgrade_step_seeded revision data (s : RState) :
  seed_data (revision_upgrade_data (self s)) revision = Some data ->
  upgrade_step exec revision s =
  match connection_executor (self s) with
  | None => (Err (AttributeError "NoneType" "table_insert"), s)
  | Some ce =>
      let out := table_insert exec ce revision data (world (env s)) in
      match fst out with
      | Ok _ => just_upgrade exec revision (after_call s (EvTableInsert revision data) (snd out))
      | Err e => (Err e, after_call s (EvTableInsert revision data) (snd out))
      end
  end.
Proof.
  unfold seed_data, upgrade_step. intros Hseed.
  unfold bind at 1. unfold get_self at 1.
  destruct (revision_upgrade_data (self s) !! revision) as [payload|]; [|discriminate].
  simpl. destruct (truthy payload); [|discriminate].
  injection Hseed as ->.
  unfold self_table_insert, bind, get_self, in_env, external, after_call, raise.
  destruct s as [me e]. simpl.
  destruct (connection_executor me) as [ce|]; [|reflexivity].
  simpl. destruct (table_insert exec ce revision data (world e)) as [[v|x] w]; reflexivity.
Qed.

(** Whatever the collaborators answer, one step of the loop issues a
    prefix of the calls planned for its revision, and all of them when it
    returns. *)
Lemma upgrade_step_trace revision (s : RState) :
  exists evs,
    trace (env (snd (upgrade_step exec revision s))) = trace (env s) ++ evs
    /\ evs `prefix_of` upgrade_events (revision_upgrade_data (self s)) revision
    /\ (fst (upgrade_step exec revision s) = Ok tt ->
        evs = upgrade_events (revision_upgrade_data (self s)) revision).
Proof.
  unfold upgrade_events.
  destruct (seed_data (revision_upgrade_data (self s)) revision) as [data|] eqn:Hseed.
  - rewrite (upgrade_step_seeded _ _ _ Hseed).
    destruct (connection_executor (self s)) as [ce|].
    + simpl. destruct (table_insert exec ce revision data (world (env s))) as [[v|x] w]; simpl.
      * rewrite just_upgrade_eq. simpl.
        exists [EvTableInsert revision data; upgrade_command revision].
        rewrite <- app_assoc. simpl. repeat split; reflexivity.
      * exists [EvTableInsert revision data]. repeat split; [|discriminate].
        now exists [upgrade_command revision].
    + exists []. simpl. rewrite app_nil_r. repeat split; [|discriminate].
      apply prefix_nil.
  - rewrite (upgrade_step_unseeded _ _ Hseed), just_upgrade_eq. simpl.
    exists [upgrade_command revision]. repeat split; reflexivity.
Qed.

Lemma for_each_upgrade_trace (range : list string) (s : RState) :
  exists evs,
    trace (env (snd (for_each range (upgrade_step exec) s))) = trace (env s) ++ evs
    /\ evs `prefix_of` upgrade_plan (revision_upgrade_data (self s)) range
    /\ (fst (for_each range (upgrade_step exec) s) = Ok tt ->
        evs = upgrade_plan (revision_upgrade_data (self s)) range).
Proof.
  revert s. induction range as [|r range IH]; intros s; simpl.
  - exists []. rewrite app_nil_r. repeat split; reflexivity.
  - destruct (upgrade_step_trace r s) as [evs1 [Ht1 [Hp1 Hf1]]].
    pose proof (keeps_self_upgrade_step r s) as Hself.
    unfold bind. destruct (upgrade_step exec r s) as [[[]|e] s1]; simpl in *.
    + destruct (IH s1) as [evs2 [Ht2 [Hp2 Hf2]]]. rewrite Hself in Hp2, Hf2.
      exists (evs1 ++ evs2). rewrite Ht2, Ht1, app_assoc.
      rewrite (Hf1 eq_refl). repeat split.
      * now apply prefix_app.
      * intros Hok. now rewrite (Hf2 Hok).
    + exists evs1. repeat split; [exact Ht1 | | discriminate].
      now apply prefix_app_r.
Qed.

Lemma managed_upgrade_unfold dest (s s1 s2 : RState) cur h range :
  current exec s = (Ok cur, s1) ->
  history exec s1 = (Ok h, s2) ->
  revision_range h cur dest = Ok range ->
  managed_upgrade exec dest s = for_each range (upgrade_step exec) s2
  /\ self s2 = self s.
Proof.
  intros Hcur Hhist Hrange. split.
  - unfold managed_upgrade.
    rewrite (bind_ok _ _ _ _ _ Hcur), (bind_ok _ _ _ _ _ Hhist).
    unfold bind, lift_result. now rewrite Hrange.
  - pose proof (keeps_self_current s) as H1. pose proof (keeps_self_history s1) as H2.
    rewrite Hcur in H1. rewrite Hhist in H2. simpl in *. congruence.
Qed.

Lemma for_each_upgrade_ok (range : list string) (s : RState) ce :
  connection_executor (self s) = Some ce ->
  (forall r w, is_ok (fst (run_command exec (command_executor (self s)) "upgrade"
                             [VStr r] None [] w)) = true) ->
  (forall r d w, is_ok (fst (table_insert exec ce r d w)) = true) ->
  fst (for_each range (upgrade_step exec) s) = Ok tt.
Proof.
  intros Hce Hup Hins. revert s Hce Hup.
  induction range as [|r range IH]; intros s Hce Hup; simpl; [reflexivity|].
  pose proof (keeps_self_upgrade_step r s) as Hself.
  assert (Hstep : fst (upgrade_step exec r s) = Ok tt).
  { destruct (seed_data (revision_upgrade_data (self s)) r) as [data|] eqn:Hseed.
    - rewrite (upgrade_step_seeded _ _ _ Hseed), Hce. simpl.
      specialize (Hins r data (world (env s))).
      destruct (fst (table_insert exec ce r data (world (env s)))); [|discriminate].
      rewrite just_upgrade_eq. simpl.
      match goal with |- context [run_command exec ?c "upgrade" ?a None [] ?w] =>
        specialize (Hup r w); destruct (fst (run_command exec c "upgrade" a None [] w))
      end; [reflexivity | discriminate].
    - rewrite (upgrade_step_unseeded _ _ Hseed), just_upgrade_eq. simpl.
      specialize (Hup r (world (env s))).
      destruct (fst (run_command _ _ _ _ _ _ _)); [reflexivity | discriminate]. }
  unfold bind. destruct (upgrade_step exec r s) as [[[]|e] s1]; simpl in *; [|discriminate].
  apply IH; now rewrite Hself.
Qed.

(** One step of the loop answers what the collaborators answer to the
    calls of its revision, and leaves the world they leave. *)
Lemma upgrade_step_calls revision (s : RState) :
  fst (upgrade_step exec revision s)
  = fst (upgrade_calls exec (self s) revision (world (env s)))
  /\ world (env (snd (upgrade_step exec revision s)))
     = snd (upgrade_calls exec (self s) revision (world (env s))).
Proof.
  unfold upgrade_calls.
  destruct (seed_data (revision_upgrade_data (self s)) revision) as [data|] eqn:Hseed.
  - rewrite (upgrade_step_seeded _ _ _ Hseed).
    destruct (connection_executor (self s)) as [ce|]; [|now split].
    unfold bind. simpl.
    destruct (table_insert exec ce revision data (world (env s))) as [[v|x] w]; simpl;
      [|now split].
    rewrite just_upgrade_eq. simpl.
    now destruct (run_command exec (command_executor (self s)) "upgrade" [VStr revision]
                    None [] w) as [[v'|x] w'].
  - rewrite (upgrade_step_unseeded _ _ Hseed), just_upgrade_eq. unfold bind. simpl.
    now destruct (run_command exec (command_executor (self s)) "upgrade" [VStr revision]
                    None [] (world (env s))) as [[v|x] w].
Qed.

Lemma for_each_upgrade_calls (range : list string) (s : RState) :
  fst (for_each range (upgrade_step exec) s)
  = fst (upgrade_plan_calls exec (self s) range (world (env s)))
  /\ world (env (snd (for_each range (upgrade_step exec) s)))
     = snd (upgrade_plan_calls exec (self s) range (world (env s))).
Proof.
  unfold upgrade_plan_calls. revert s.
  induction range as [|r range IH]; intros s; simpl; [now split|].
  destruct (upgrade_step_calls r s) as [Hr Hw].
  pose proof (keeps_self_upgrade_step r s) as Hself.
  unfold bind.
  destruct (upgrade_step exec r s) as [[[]|e] s1];
    destruct (upgrade_calls exec (self s) r (world (env s))) as [[[]|e'] w1];
    simpl in *; try discriminate.
  - subst w1. rewrite <- Hself. apply IH.
  - injection Hr as <-. now split.
Qed.

(** C1. Once [managed_upgrade(dest)] has read the current revision and
    the history and resolved [revision_range(current, dest)] to [range],
    the calls it makes on the collaborators are, whatever these answer, a
    prefix of the plan that walks [range] in order and, for each revision,
    has the table insert of the seed data registered under that very
    revision identifier immediately before the "upgrade" command to that
    revision, and the "upgrade" command alone when none is registered; they
    are the whole plan when it returns.  With a connection executor bound
    and collaborators that do not raise, it does return.  These calls are
    made, not only recorded: the result of [managed_upgrade] and the world
    it leaves are those of running, from the world the queries left, the
    insert on the connection executor and then the "upgrade" command on the
    command executor for each revision of [range] in turn, an insert that
    raises ending the run before its "upgrade" command. *)
Theorem managed_upgrade_inserts_seed_before_each_upgrade
    (dest : option string) (s s1 s2 : RState) cur h range :
  current exec s = (Ok cur, s1) ->
  history exec s1 = (Ok h, s2) ->
  revision_range h cur dest = Ok range ->
  (exists evs,
      trace (env (snd (managed_upgrade exec dest s))) = trace (env s2) ++ evs
      /\ evs `prefix_of` upgrade_plan (revision_upgrade_data (self s)) range
      /\ (fst (managed_upgrade exec dest s) = Ok tt ->
          evs = upgrade_plan (revision_upgrade_data (self s)) range))
  /\ (forall ce,
        connection_executor (self s) = Some ce ->
        (forall r w, is_ok (fst (run_command exec (command_executor (self s)) "upgrade"
                                   [VStr r] None [] w)) = true) ->
        (forall r d w, is_ok (fst (table_insert exec ce r d w)) = true) ->
        fst (managed_upgrade exec dest s) = Ok tt)
  /\ fst (managed_upgrade exec dest s)
     = fst (upgrade_plan_calls exec (self s) range (world (env s2)))
  /\ world (env (snd (managed_upgrade exec dest s)))
     = snd (upgrade_plan_calls exec (self s) range (world (env s2))).
Proof.
  intros Hcur Hhist Hrange.
  destruct (managed_upgrade_unfold _ _ _ _ _ _ _ Hcur Hhist Hrange) as [-> Hself].
  rewrite <- Hself. split; [|split].
  - apply for_each_upgrade_trace.
  - intros ce Hce Hup Hins. now apply (for_each_upgrade_ok range s2 ce).
  - apply for_each_upgrade_calls.
Qed.

(** *** Without a connection executor *)




(** *** Registrations that hold no data *)




Lemma same_run_raise {A} (e : exn) : same_run (raise (A := A) e).
Proof. intros s s' Hs. now split. Qed.











(** *** [history], [migrate_down_before] and [migrate_down_to] *)

Lemma history_eq (s : RState) :
  history exec s =
  let out := run_command exec (command_executor (self s)) "history" [] None []
               (world (env s)) in
  (match fst out with
   | Ok raw => match tuple_lines raw with
               | Ok lines => parse lines
               | Err e => Err e
               end
   | Err e => Err e
   end,
   after_call s (EvRunCommand "history" [] []) (snd out)).
Proof.
  unfold history, bind. rewrite self_run_command_eq. simpl.
  destruct (fst (run_command _ _ _ _ _ _ _)) as [raw|e]; [|reflexivity].
  unfold lift_result. now destruct (tuple_lines raw).
Qed.

Lemma migrate_down_before_eq revision (s : RState) :
  migrate_down_before exec get_hash_before revision s =
  (match fst (history exec s) with
   | Ok h => match next_revision h revision with
             | Ok _ => Err (AttributeError "MigrationContext" "get_hash_before")
             | Err e => Err e
             end
   | Err e => Err e
   end,
   snd (history exec s)).
Proof.
  unfold migrate_down_before, bind.
  destruct (history exec s) as [[h|e] s1]; [|reflexivity].
  unfold lift_result. simpl. now destruct (next_revision h revision).
Qed.

(** Whatever the revision and whatever the collaborators answer,
    [migrate_down_before] never returns normally, and the one call it has
    made is the "history" command: no "downgrade" command is issued. *)
Lemma migrate_down_before_issues_no_downgrade revision (s : RState) :
  is_ok (fst (migrate_down_before exec get_hash_before revision s)) = false
  /\ trace (env (snd (migrate_down_before exec get_hash_before revision s)))
     = trace (env s) ++ [EvRunCommand "history" [] []].
Proof.
  rewrite migrate_down_before_eq. simpl. split.
  - destruct (fst (history exec s)) as [h|e]; [|reflexivity].
    now destruct (next_revision h revision).
  - now rewrite history_eq.
Qed.

Lemma keeps_self_migrate_down_before revision :
  keeps_self (migrate_down_before exec get_hash_before revision).
Proof. intros s. rewrite migrate_down_before_eq. simpl. apply keeps_self_history. Qed.

Lemma migrate_down_to_eq revision (s : RState) :
  migrate_down_to exec revision s =
  match history exec s with
  | (Ok h, s1) =>
      match validate_revision h revision with
      | Ok _ =>
          let out := run_command exec (command_executor (self s1)) "downgrade"
                       [VStr revision] None [] (world (env s1)) in
          (match fst out with Ok _ => Ok tt | Err e => Err e end,
           after_call s1 (downgrade_command revision) (snd out))
      | Err e => (Err e, s1)
      end
  | (Err e, s1) => (Err e, s1)
  end.
Proof.
  unfold migrate_down_to, bind.
  destruct (history exec s) as [[h|e] s1]; [|reflexivity].
  unfold lift_result. destruct (validate_revision h revision); [|reflexivity].
  unfold raw_command. rewrite self_run_command_eq. simpl.
  now destruct (fst (run_command _ _ _ _ _ _ _)).
Qed.

(** *** The seed-data map *)

Lemma keeps_self_operation (op : operation) (s : RState) :
  self (after_operation exec get_hash_before s op) = self s.
Proof.
  destruct op; simpl.
  - apply keeps_self_generate_revision.
  - apply keeps_self_history.
  - apply keeps_self_heads.
  - apply keeps_self_current.
  - apply keeps_self_raw_command.
  - apply keeps_self_managed_upgrade.
  - apply keeps_self_migrate_up_before.
  - apply keeps_self_migrate_up_to.
  - apply keeps_self_migrate_up_one.
  - apply keeps_self_migrate_down_before.
  - apply keeps_self_migrate_down_to.
  - apply keeps_self_migrate_down_one.
  - apply keeps_self_roundtrip_next_revision.
  - apply keeps_self_insert_into.
Qed.

Lemma runner_yields config engine (e0 : Env) :
  match runner exec config engine e0 with
  | (Ok (Yielded ctx resume throw), e1) =>
      revision_upgrade_data ctx = default ∅ (cfg_revision_upgrade_data config)
      /\ (is_Some (connection_executor ctx) <-> is_Some engine)
      /\ trace e1 = trace e0 ++ entry_events config engine
      /\ resume = ret Returned
      /\ throw = (fun x => raise x)
  | (Ok Returned, _) => False
  | (Err _, e1) => trace e1 `prefix_of` trace e0 ++ entry_events config engine
  end.
Proof.
  unfold runner, bind, external, ret, entry_events.
  destruct (CommandExecutor_from_config exec config (world e0)) as [[ce|x] w]; simpl.
  - destruct engine as [engine|]; simpl.
    + destruct (configure exec ce engine w) as [[v|x] w1]; simpl.
      * destruct (ConnectionExecutor_new exec engine w1) as [[c|x] w2]; simpl.
        -- rewrite <- !app_assoc. simpl. repeat split; eauto.
        -- exists []. rewrite <- !app_assoc. reflexivity.
      * exists [EvConnectionExecutor engine]. rewrite <- !app_assoc. reflexivity.
    + repeat split; try (intros [? ?]; discriminate).
  - exists (match engine with
            | Some engine => [EvConfigure engine; EvConnectionExecutor engine]
            | None => []
            end).
    rewrite <- !app_assoc. reflexivity.
Qed.

(** C8. The seed-data map of a context is the one of the configuration
    (empty when the configuration has none): [from_config] sets it so, and
    so it is in the context [runner] yields; and after any sequence of
    operations of the runner, each returning or raising, the map is the one
    it was. *)
Theorem revision_upgrade_data_set_at_construction_then_unchanged :
  (forall config (ce : CommandExecutor),
      revision_upgrade_data
        (MigrationContext_from_config (ConnectionExecutor := ConnectionExecutor) config ce)
      = default ∅ (cfg_revision_upgrade_data config))
  /\ (forall config engine (e0 : Env),
        match fst (runner exec config engine e0) with
        | Ok (Yielded ctx _ _) =>
            revision_upgrade_data ctx = default ∅ (cfg_revision_upgrade_data config)
        | _ => True
        end)
  /\ (forall (ops : list operation) (s : RState),
        revision_upgrade_data (self (after_operations exec get_hash_before s ops))
        = revision_upgrade_data (self s)).
Proof.
  split; [reflexivity|]. split.
  - intros config engine e0. pose proof (runner_yields config engine e0) as Hy.
    destruct (runner exec config engine e0) as [[[ctx resume throw|]|x] e1]; simpl; tauto.
  - intros ops. unfold after_operations.
    induction ops as [|op ops IH]; intros s; simpl; [reflexivity|].
    now rewrite IH, keeps_self_operation.
Qed.

(** *** The context manager *)

(** C3, as the code has it.  Entering the runner context makes the calls
    of the entry (the command executor is built from the configuration and,
    when an engine is supplied, configured with it and a connection
    executor is bound to the context) and yields the context; the block
    then is exactly its body run on that context: the exit makes no call on
    a collaborator and leaves the world as the body left it, a body that
    returns lets the block return and an exception of the body leaves the
    block unchanged.  No release is performed. *)
Theorem runner_context_exit_makes_no_call
    config engine (body : MigrationContext -> St Env unit) (e0 : Env) :
  match runner exec config engine e0 with
  | (Ok (Yielded ctx _ _), e1) =>
      trace e1 = trace e0 ++ entry_events config engine
      /\ (is_Some (connection_executor ctx) <-> is_Some engine)
      /\ with_context (runner exec config engine) body e0 = body ctx e1
  | (Ok Returned, _) => False
  | (Err x, e1) => with_context (runner exec config engine) body e0 = (Err x, e1)
  end.
Proof.
  pose proof (runner_yields config engine e0) as Hy.
  destruct (runner exec config engine e0) as [[[ctx resume throw|]|x] e1] eqn:Hrun.
  - destruct Hy as [_ [Hconn [Htrace [-> ->]]]].
    split; [exact Htrace|]. split; [exact Hconn|].
    unfold with_context. rewrite (bind_ok _ _ _ _ _ Hrun).
    destruct (body ctx e1) as [[[]|x] e2]; reflexivity.
  - exact Hy.
  - unfold with_context. now rewrite (bind_err _ _ _ _ _ Hrun).
Qed.

End RunnerFacts.

(** ** With the history of [pytest_alembic.history] *)

Section DownTo.
Context {World Engine CommandExecutor ConnectionExecutor : Type}.
Variable exec : Executors World Engine CommandExecutor ConnectionExecutor.

Abbreviation RState := (@RState World Engine CommandExecutor ConnectionExecutor).

Lemma lookup_is_Some (h : AlembicHistory.t) revision :
  is_Some (AlembicHistory.lookup h revision) <-> revision ∈ AlembicHistory.rev_id <$> h.
Proof.
  unfold AlembicHistory.lookup. induction h as [|r h IH]; simpl.
  - split; [intros [? ?]; discriminate | intros Hin; now apply elem_of_nil in Hin].
  - rewrite elem_of_cons. destruct (String.eqb_spec (AlembicHistory.rev_id r) revision) as [->|Hne].
    + split; [now left | eauto].
    + rewrite IH. split; [now right | intros [Heq|Hin]; [congruence | exact Hin]].
Qed.

Lemma known_spec (h : AlembicHistory.t) revision :
  AlembicHistory.known h revision = true
  <-> revision = "base" \/ revision ∈ AlembicHistory.rev_id <$> h.
Proof.
  unfold AlembicHistory.known.
  rewrite orb_true_iff, String.eqb_eq, bool_decide_eq_true, lookup_is_Some. reflexivity.
Qed.

(** C7. Once the history is read, [migrate_down_to(revision)] validates
    the revision against it: for a revision of the history (or ["base"]) it
    then issues the "downgrade" command to that same revision, once, and
    nothing else; for one that is neither in the history nor ["base"] it
    raises [UnknownRevisionError] and stops in the state the "history"
    query left, no "downgrade" command issued. *)
Theorem migrate_down_to_validates_then_downgrades
    (s s1 : RState) (h : AlembicHistory.t) (revision : string) :
  history exec s = (Ok h, s1) ->
  trace (env s1) = trace (env s) ++ [EvRunCommand "history" [] []]
  /\ ((revision = "base" \/ revision ∈ AlembicHistory.rev_id <$> h) ->
      let out := run_command exec (command_executor (self s1)) "downgrade"
                   [VStr revision] None [] (world (env s1)) in
      migrate_down_to exec revision s =
      (match fst out with Ok _ => Ok tt | Err e => Err e end,
       after_call s1 (downgrade_command revision) (snd out)))
  /\ (revision <> "base" -> revision ∉ AlembicHistory.rev_id <$> h ->
      migrate_down_to exec revision s = (Err (UnknownRevisionError revision), s1)).
Proof.
  intros Hhist. split; [|split].
  - pose proof (history_eq exec s) as Heq. rewrite Hhist in Heq.
    injection Heq as _ ->. reflexivity.
  - intros Hknown. apply known_spec in Hknown.
    rewrite migrate_down_to_eq, Hhist. simpl.
    unfold AlembicHistory.validate_revision. now rewrite Hknown.
  - intros Hbase Hin. rewrite migrate_down_to_eq, Hhist. simpl.
    unfold AlembicHistory.validate_revision.
    destruct (AlembicHistory.known h revision) eqn:Hknown; [|reflexivity].
    apply known_spec in Hknown as [?|?]; contradiction.
Qed.

End DownTo.

(** ** The runner on the in-memory executor *)

(** On the history [R2 -> R1 -> base], at base, with data registered for R2
    and an empty registration for R1: upgrading to R2 upgrades to R1, inserts
    the data of R2, then upgrades to R2; the row is in the table and the
    database is at R2. *)
Lemma managed_upgrade_inserts_seed_before_each_upgrade_witness :
  fst (managed_upgrade Demo.demo_exec (Some "R2") (Demo.state0 (Some tt))) = Ok tt
  /\ trace (env (snd (managed_upgrade Demo.demo_exec (Some "R2") (Demo.state0 (Some tt)))))
     = [ EvRunCommand "current" [] []; EvRunCommand "history" [] [];
         EvRunCommand "upgrade" [VStr "R1"] [];
         EvTableInsert "R2" (VList [VDict [("id", VInt 1)]]);
         EvRunCommand "upgrade" [VStr "R2"] [] ]
  /\ world (env (snd (managed_upgrade Demo.demo_exec (Some "R2") (Demo.state0 (Some tt)))))
     = Demo.set_current ["R2"]
         (Demo.add_row "R2" (VList [VDict [("id", VInt 1)]])
            (Demo.set_current ["R1"] Demo.world0)).
Proof.
  destruct (managed_upgrade_inserts_seed_before_each_upgrade
              (HistOps := AlembicHistory_ops) Demo.demo_exec
              (Some "R2") (Demo.state0 (Some tt)) (Demo.state_current (Some tt))
              (Demo.state_history (Some tt)) "base" Demo.history0 ["R1"; "R2"]
              eq_refl eq_refl eq_refl)
    as [[evs [Htrace [_ Hall]]] [Hok [_ Hworld]]].
  pose proof (Hok tt eq_refl (fun _ _ => eq_refl) (fun _ _ _ => eq_refl)) as Hret.
  split; [exact Hret|]. split.
  - rewrite Htrace, (Hall Hret). reflexivity.
  - rewrite Hworld. reflexivity.
Defined.

Lemma current_first_line_stripped_or_base_witness :
  exists revision,
    current Demo.demo_exec Demo.state_padded
    = (Ok revision,
       after_call Demo.state_padded (EvRunCommand "current" [] [])
         (Demo.set_current [Demo.padded_line] Demo.world0))
    /\ revision = "R1 (head)".
Proof.
  destruct (current_first_line_stripped_or_base Demo.demo_exec Demo.state_padded
              [Demo.padded_line] (Demo.set_current [Demo.padded_line] Demo.world0) eq_refl)
    as [revision [Hrun [Hrev _]]].
  exists revision. split; [exact Hrun | exact Hrev].
Defined.



Lemma migrate_down_to_validates_then_downgrades_witness :
  migrate_down_to Demo.demo_exec "R1" (Demo.state0 None)
  = (Ok tt,
     after_call (Demo.state_history_only None) (EvRunCommand "downgrade" [VStr "R1"] [])
       (Demo.set_current ["R1"] Demo.world0))
  /\ migrate_down_to Demo.demo_exec "R3" (Demo.state0 None)
     = (Err (UnknownRevisionError "R3"), Demo.state_history_only None).
Proof.
  split.
  - destruct (migrate_down_to_validates_then_downgrades Demo.demo_exec
                (Demo.state0 None) (Demo.state_history_only None) Demo.history0 "R1" eq_refl)
      as [_ [Hdown _]].
    apply Hdown. right. apply list_elem_of_further, list_elem_of_here.
  - destruct (migrate_down_to_validates_then_downgrades Demo.demo_exec
                (Demo.state0 None) (Demo.state_history_only None) Demo.history0 "R3" eq_refl)
      as [_ [_ Hunknown]].
    apply Hunknown; [discriminate|].
    intros Hin. repeat (apply elem_of_cons in Hin as [Hin|Hin]; [discriminate|]).
    now apply elem_of_nil in Hin.
Defined.

(** C2, on the code.  On the history [R2 -> R1 -> base], whose successor of
    R1 is R2, [migrate_down_before("R1")] reads the history and then fails on
    the lookup of [get_hash_before], whatever that method would have
    computed: the attribute error is raised and no "downgrade" command is
    issued. *)
Theorem migrate_down_before_raises_AttributeError
    (get_hash_before : option string -> St RState pyval) :
  next_revision Demo.history0 "R1" = Ok (Some "R2")
  /\ migrate_down_before Demo.demo_exec get_hash_before "R1" (Demo.state0 (Some tt))
     = (Err (AttributeError "MigrationContext" "get_hash_before"),
        Demo.state_history_only (Some tt))
  /\ trace (env (Demo.state_history_only (Some tt))) = [EvRunCommand "history" [] []].
Proof. repeat split. Qed.

(** C3, against the claim.  With an engine supplied and a body whose
    migration raises, the calls of the whole block are those of the entry
    followed by the one of the body: no call is made at the exit that would
    release the command executor or the connection. *)
Lemma runner_context_exit_releases_nothing :
  ~ released_at_exit
      (entry_events Demo.config (Some tt))
      [EvRunCommand "history" [] []]
      (trace (snd (with_context (runner Demo.demo_exec Demo.config (Some tt))
                     (on_context (migrate_down_to Demo.demo_exec "R3")) Demo.env0))).
Proof.
  intros [release [rest Hwhole]].
  apply (f_equal List.length) in Hwhole.
  rewrite !length_app in Hwhole. simpl in Hwhole. lia.
Qed.


(** * More of the runner *)

Section MoreFacts.
Context {World Engine CommandExecutor ConnectionExecutor History : Type}.
Context `{HistOps : HistoryOps History}.
Variable exec : Executors World Engine CommandExecutor ConnectionExecutor.
Abbreviation RState := (@RState World Engine CommandExecutor ConnectionExecutor).
Abbreviation Env := (@Env World Engine).
Abbreviation issues_only P m :=
  (@issues_only World Engine CommandExecutor ConnectionExecutor P _ m).

(** ** Which calls an operation makes *)

Lemma issues_ret P {A} (a : A) : issues_only P (ret a).
Proof. intros s. exists []. simpl. now rewrite app_nil_r. Qed.

Lemma issues_raise P {A} (e : exn) : issues_only P (raise (A := A) e).
Proof. intros s. exists []. simpl. now rewrite app_nil_r. Qed.

Lemma issues_lift_result P {A} (r : result A) : issues_only P (lift_result r).
Proof. intros s. exists []. simpl. now rewrite app_nil_r. Qed.

Lemma issues_bind P {A B} (m : St RState A) (k : A -> St RState B) :
  issues_only P m -> (forall a, issues_only P (k a)) -> issues_only P (bind m k).
Proof.
  intros Hm Hk s. unfold bind. destruct (Hm s) as [evs1 [Ht1 Hp1]].
  destruct (m s) as [[a|e] s1]; simpl in *.
  - destruct (Hk a s1) as [evs2 [Ht2 Hp2]]. exists (evs1 ++ evs2).
    rewrite Ht2, Ht1, app_assoc. split; [reflexivity | now apply Forall_app].
  - now exists evs1.
Qed.

Lemma issues_run_command (P : event -> Prop) name args hook kwargs :
  P (EvRunCommand name args kwargs) ->
  issues_only P (self_run_command exec name args hook kwargs).
Proof.
  intros HP s. rewrite self_run_command_eq. simpl.
  exists [EvRunCommand name args kwargs]. split; [reflexivity | now constructor].
Qed.

Lemma issues_table_insert (P : event -> Prop) revision data :
  P (EvTableInsert revision data) ->
  issues_only P (self_table_insert exec revision data).
Proof.
  intros HP s. unfold self_table_insert, bind, get_self, in_env, external, raise.
  destruct (connection_executor (self s)) as [ce|]; simpl.
  - destruct (table_insert exec ce revision data (world (env s))) as [r w]. simpl.
    exists [EvTableInsert revision data]. split; [reflexivity | now constructor].
  - exists []. now rewrite app_nil_r.
Qed.

Lemma issues_for_each P {A} (l : list A) (body : A -> St RState unit) :
  (forall a, issues_only P (body a)) -> issues_only P (for_each l body).
Proof.
  intros Hbody. induction l as [|a l IH]; simpl.
  - apply issues_ret.
  - apply issues_bind; [apply Hbody | intros _; exact IH].
Qed.

Lemma upward_current : issues_only upward_event (current exec).
Proof.
  unfold current. apply issues_bind; [apply issues_run_command; simpl; tauto|].
  intros raw. destruct (truthy raw); [|apply issues_ret].
  apply issues_bind; [apply issues_lift_result | intros ?; apply issues_lift_result].
Qed.

Lemma issues_history (P : event -> Prop) :
  P history_query -> issues_only P (history exec).
Proof.
  intros HP. unfold history. apply issues_bind; [now apply issues_run_command|].
  intros raw.
  apply issues_bind; [apply issues_lift_result | intros ?; apply issues_lift_result].
Qed.

Lemma upward_upgrade_command revision :
  upward_event (upgrade_command (Engine := Engine) revision).
Proof. simpl. tauto. Qed.

Lemma upward_upgrade_step revision : issues_only upward_event (upgrade_step exec revision).
Proof.
  pose proof (upward_upgrade_command revision) as Hup.
  intros s.
  destruct (seed_data (revision_upgrade_data (self s)) revision) as [data|] eqn:Hseed.
  - rewrite (upgrade_step_seeded _ _ _ _ Hseed).
    destruct (connection_executor (self s)) as [ce|]; simpl.
    + destruct (table_insert exec ce revision data (world (env s))) as [[v|x] w]; simpl.
      * rewrite just_upgrade_eq. simpl.
        exists [EvTableInsert revision data; upgrade_command revision].
        rewrite <- app_assoc. split; [reflexivity|].
        constructor; [exact I|]. constructor; [exact Hup | constructor].
      * exists [EvTableInsert revision data]. split; [reflexivity|].
        constructor; [exact I | constructor].
    + exists []. now rewrite app_nil_r.
  - rewrite (upgrade_step_unseeded _ _ _ Hseed), just_upgrade_eq. simpl.
    exists [upgrade_command revision]. split; [reflexivity|].
    constructor; [exact Hup | constructor].
Qed.

Lemma upward_managed_upgrade dest : issues_only upward_event (managed_upgrade exec dest).
Proof.
  unfold managed_upgrade.
  apply issues_bind; [apply upward_current | intros cur].
  apply issues_bind; [apply issues_history; simpl; tauto | intros h].
  apply issues_bind; [apply issues_lift_result | intros range].
  apply issues_for_each. apply upward_upgrade_step.
Qed.

Lemma upward_migrate_up_one : issues_only upward_event (migrate_up_one exec).
Proof.
  unfold migrate_up_one.
  apply issues_bind; [apply issues_history; simpl; tauto | intros h].
  apply issues_bind; [apply upward_current | intros cur].
  apply issues_bind; [apply issues_lift_result | intros next].
  apply upward_managed_upgrade.
Qed.

(** X1. Whatever the collaborators answer and whether they return or
    raise, the calls made by [managed_upgrade], [migrate_up_before],
    [migrate_up_to] and [migrate_up_one] are "current" and "history" queries,
    seed inserts and "upgrade" commands: an upgrade never issues a
    "downgrade" command. *)
Theorem upgrades_never_downgrade :
  (forall dest, issues_only upward_event (managed_upgrade exec dest))
  /\ (forall revision, issues_only upward_event (migrate_up_before exec revision))
  /\ (forall revision, issues_only upward_event (migrate_up_to exec revision))
  /\ issues_only upward_event (migrate_up_one exec).
Proof.
  split; [exact upward_managed_upgrade|]. split; [|split].
  - intros revision. unfold migrate_up_before.
    apply issues_bind; [apply issues_history; simpl; tauto | intros h].
    apply issues_bind; [apply issues_lift_result | intros p].
    apply upward_managed_upgrade.
  - intros revision. apply upward_managed_upgrade.
  - exact upward_migrate_up_one.
Qed.

Lemma migrate_down_one_eq (s : RState) :
  migrate_down_one exec s =
  let out := run_command exec (command_executor (self s)) "downgrade" [VStr "-1"]
               None [] (world (env s)) in
  (match fst out with Ok _ => Ok tt | Err e => Err e end,
   after_call s step_back (snd out)).
Proof.
  unfold migrate_down_one, raw_command, bind. rewrite self_run_command_eq.
  now destruct (fst (run_command _ _ _ _ _ _ _)).
Qed.


(** X4. The history, the heads and the current revision are not kept
    between accesses: two accesses in a row issue the command twice, whatever
    it answered the first time, and leave the fields of the context alone. *)
Theorem queries_are_not_cached (s : RState) :
  (trace (env (snd (history exec (snd (history exec s)))))
   = trace (env s) ++ [history_query; history_query]
   /\ self (snd (history exec (snd (history exec s)))) = self s)
  /\ (trace (env (snd (current exec (snd (current exec s)))))
      = trace (env s) ++ [current_query; current_query]
      /\ self (snd (current exec (snd (current exec s)))) = self s)
  /\ (trace (env (snd (heads exec (snd (heads exec s)))))
      = trace (env s) ++ [EvRunCommand "heads" [] []; EvRunCommand "heads" [] []]
      /\ self (snd (heads exec (snd (heads exec s)))) = self s).
Proof.
  assert (Hcur : forall s0 : RState,
             trace (env (snd (current exec s0))) = trace (env s0) ++ [current_query]).
  { intros s0. unfold current, bind. rewrite self_run_command_eq. simpl.
    destruct (fst (run_command _ _ _ _ _ _ _)) as [raw|e]; [|reflexivity].
    destruct (truthy raw); [|reflexivity].
    unfold lift_result. destruct (getitem0 raw); reflexivity. }
  split; [|split]; split.
  - rewrite !history_eq. simpl. now rewrite <- app_assoc.
  - now rewrite !keeps_self_history.
  - rewrite !Hcur. now rewrite <- app_assoc.
  - now rewrite !keeps_self_current.
  - unfold heads. rewrite !self_run_command_eq. simpl. now rewrite <- app_assoc.
  - now rewrite !keeps_self_heads.
Qed.

(** No line of the source defines [get_hash_before]; see [migrate_down_before]. *)
Variable get_hash_before : option string -> St RState pyval.

(** X2. The calls made by [migrate_down_before], [migrate_down_to] and
    [migrate_down_one] are "history" queries and "downgrade" commands, and
    nothing else: a downgrade never inserts seed data, never issues an
    "upgrade" command and never asks for the current revision. *)
Theorem downgrades_never_seed :
  (forall revision,
      issues_only downward_event (migrate_down_before exec get_hash_before revision))
  /\ (forall revision, issues_only downward_event (migrate_down_to exec revision))
  /\ issues_only downward_event (migrate_down_one exec).
Proof.
  split; [|split].
  - intros revision s. rewrite migrate_down_before_eq. simpl.
    apply (issues_history downward_event); simpl; tauto.
  - intros revision. unfold migrate_down_to.
    apply issues_bind; [apply issues_history; simpl; tauto | intros h].
    apply issues_bind; [apply issues_lift_result | intros _].
    apply issues_bind; [|intros _; apply issues_ret].
    apply issues_run_command. simpl. tauto.
  - intros s. rewrite migrate_down_one_eq. simpl.
    exists [step_back]. split; [reflexivity|]. constructor; [simpl; tauto | constructor].
Qed.

End MoreFacts.

(** ** Failures and edges *)

Section Failures.
Context {World Engine CommandExecutor ConnectionExecutor History : Type}.
Context `{HistOps : HistoryOps History}.
Variable exec : Executors World Engine CommandExecutor ConnectionExecutor.

Abbreviation RState := (@RState World Engine CommandExecutor ConnectionExecutor).
Abbreviation Env := (@Env World Engine).

Lemma current_state (s : RState) :
  snd (current exec s)
  = after_call s current_query
      (snd (run_command exec (command_executor (self s)) "current" [] None []
              (world (env s)))).
Proof.
  unfold current, bind. rewrite self_run_command_eq. simpl.
  destruct (fst (run_command _ _ _ _ _ _ _)) as [raw|e]; [|reflexivity].
  destruct (truthy raw); [|reflexivity].
  unfold lift_result. destruct (getitem0 raw); reflexivity.
Qed.

Lemma for_each_app {S A} (l1 l2 : list A) (body : A -> St S unit) (s : S) :
  for_each (l1 ++ l2) body s = (for_each l1 body ;; for_each l2 body) s.
Proof.
  revert s. induction l1 as [|a l1 IH]; intros s; simpl; [reflexivity|].
  unfold bind in *. destruct (body a s) as [[[]|e] s1]; [|reflexivity].
  apply IH.
Qed.

(** X5. After its two queries, a [managed_upgrade] whose range does not
    resolve raises the error of [revision_range] and one whose range is empty
    returns; in both cases it has made no call but the "current" and the
    "history" query, in that order. *)
Theorem managed_upgrade_without_steps (dest : option string) (s s1 s2 : RState) cur h :
  current exec s = (Ok cur, s1) ->
  history exec s1 = (Ok h, s2) ->
  trace (env s2) = trace (env s) ++ [current_query; history_query]
  /\ (forall e, revision_range h cur dest = Err e ->
                managed_upgrade exec dest s = (Err e, s2))
  /\ (revision_range h cur dest = Ok [] -> managed_upgrade exec dest s = (Ok tt, s2)).
Proof.
  intros Hcur Hhist. split; [|split].
  - pose proof (current_state s) as H1. pose proof (history_eq exec s1) as H2.
    rewrite Hcur in H1. rewrite Hhist in H2. simpl in H1.
    injection H2 as _ ->. rewrite H1. simpl. now rewrite <- app_assoc.
  - intros e He. unfold managed_upgrade.
    rewrite (bind_ok _ _ _ _ _ Hcur), (bind_ok _ _ _ _ _ Hhist).
    unfold bind, lift_result. now rewrite He.
  - intros Hempty. unfold managed_upgrade.
    rewrite (bind_ok _ _ _ _ _ Hcur), (bind_ok _ _ _ _ _ Hhist).
    unfold bind, lift_result. now rewrite Hempty.
Qed.

(** X6. [managed_upgrade] stops at the first revision whose step raises:
    it raises that exception in the state that step left, and makes no call
    for the revisions after it. *)
Theorem managed_upgrade_stops_at_first_failure
    (dest : option string) (s s1 s2 s3 s4 : RState) cur h pre r post e :
  current exec s = (Ok cur, s1) ->
  history exec s1 = (Ok h, s2) ->
  revision_range h cur dest = Ok (pre ++ r :: post) ->
  for_each pre (upgrade_step exec) s2 = (Ok tt, s3) ->
  upgrade_step exec r s3 = (Err e, s4) ->
  managed_upgrade exec dest s = (Err e, s4).
Proof.
  intros Hcur Hhist Hrange Hpre Hstep.
  destruct (managed_upgrade_unfold exec _ _ _ _ _ _ _ Hcur Hhist Hrange) as [-> _].
  rewrite for_each_app. rewrite (bind_ok _ _ _ _ _ Hpre). simpl.
  now rewrite (bind_err _ _ _ _ _ Hstep).
Qed.

(** X7. When the insert of the seed data of a revision raises, the step
    of that revision raises the same exception right after the insert: the
    "upgrade" command to that revision is not issued. *)
Theorem failed_insert_skips_upgrade (s : RState) revision data ce e w :
  revision_upgrade_data (self s) !! revision = Some data ->
  truthy data = true ->
  connection_executor (self s) = Some ce ->
  table_insert exec ce revision data (world (env s)) = (Err e, w) ->
  upgrade_step exec revision s = (Err e, after_call s (EvTableInsert revision data) w).
Proof.
  intros Hdata Htruthy Hce Hins.
  assert (Hseed : seed_data (revision_upgrade_data (self s)) revision = Some data).
  { unfold seed_data. now rewrite Hdata, Htruthy. }
  rewrite (upgrade_step_seeded exec _ _ _ Hseed), Hce. simpl. now rewrite Hins.
Qed.

(** X8. [insert_into] first asks for the current revision; when that
    fails it raises the same and calls nothing else; otherwise, without a
    connection executor it raises a type error ([None] is not callable), and
    with one it makes the one call on it, tagged with the current revision,
    and returns or raises what that call does. *)
Theorem insert_into_tags_current_revision (table data : pyval) (s s1 : RState) r :
  current exec s = (r, s1) ->
  insert_into exec table data s =
  match r with
  | Err e => (Err e, s1)
  | Ok cur =>
      match connection_executor (self s) with
      | None => (Err (TypeError "'NoneType' object is not callable"), s1)
      | Some ce =>
          let out := connection_call exec ce (VStr cur) table data (world (env s1)) in
          (fst out, after_call s1 (EvConnectionCall (VStr cur) table data) (snd out))
      end
  end.
Proof.
  intros Hcur. unfold insert_into, bind, get_self. simpl. rewrite Hcur.
  destruct r as [cur|e]; [|reflexivity].
  destruct (connection_executor (self s)) as [ce|]; [|reflexivity].
  unfold in_env, external, after_call.
  now destruct (connection_call exec ce (VStr cur) table data (world (env s1))).
Qed.

(** X9. With a command executor whose "revision" command calls the hook
    it is given on [args] and then goes on with [rest] (writing the revision
    file), [generate_revision] never reaches [rest]: with no callback it
    returns [None] and leaves the world as it was; with a callback it leaves
    the world as the callback left it, and returns [None] when the callback
    returned (or raised the sentinel itself) and raises the callback's
    exception otherwise. *)
Theorem generate_revision_stops_before_the_file_is_written
    (fn : option (callback World)) (kwargs : list (string * pyval))
    (args : directive_args) (rest : St World pyval) (s : RState) :
  (forall hook,
      run_command exec (command_executor (self s)) "revision" [] (Some hook) kwargs
        (world (env s))
      = (hook args ;; rest) (world (env s))) ->
  generate_revision exec fn kwargs s =
  match fn with
  | None => (Ok VNone, after_call s (EvRunCommand "revision" [] kwargs) (world (env s)))
  | Some f =>
      (match fst (f args (world (env s))) with
       | Ok _ => Ok VNone
       | Err RevisionSuccess => Ok VNone
       | Err e => Err e
       end,
       after_call s (EvRunCommand "revision" [] kwargs) (snd (f args (world (env s)))))
  end.
Proof.
  intros Hexec. unfold generate_revision, try_except_RevisionSuccess.
  rewrite self_run_command_eq, Hexec.
  unfold process_revision_directives, bind, raise.
  destruct fn as [f|]; simpl; [|reflexivity].
  destruct (f args (world (env s))) as [[v|[]] w]; reflexivity.
Qed.

(** X10. [migrate_up_before(revision)] reads the history once to find
    the revision before [revision] and is then [managed_upgrade] to that
    revision (which reads the history again); when [previous_revision] raises
    it raises the same, having made no call but the "history" query. *)
Theorem migrate_up_before_is_upgrade_to_previous (revision : string) (s s1 : RState) h :
  history exec s = (Ok h, s1) ->
  trace (env s1) = trace (env s) ++ [history_query]
  /\ migrate_up_before exec revision s =
     match previous_revision h revision with
     | Ok previous => managed_upgrade exec (Some previous) s1
     | Err e => (Err e, s1)
     end.
Proof.
  intros Hhist. split.
  - pose proof (history_eq exec s) as Heq. rewrite Hhist in Heq.
    injection Heq as _ ->. reflexivity.
  - unfold migrate_up_before. rewrite (bind_ok _ _ _ _ _ Hhist).
    unfold bind, lift_result. now destruct (previous_revision h revision).
Qed.

(** X11. [migrate_up_one] reads the history, then the current revision,
    and is then [managed_upgrade] to what [next_revision] gives for it, the
    [None] of a head included; when [next_revision] raises it raises the
    same, having made no call but the two queries. *)
Theorem migrate_up_one_is_upgrade_to_next (s s1 s2 : RState) h cur :
  history exec s = (Ok h, s1) ->
  current exec s1 = (Ok cur, s2) ->
  trace (env s2) = trace (env s) ++ [history_query; current_query]
  /\ migrate_up_one exec s =
     match next_revision h cur with
     | Ok next => managed_upgrade exec next s2
     | Err e => (Err e, s2)
     end.
Proof.
  intros Hhist Hcur. split.
  - pose proof (history_eq exec s) as H1. pose proof (current_state s1) as H2.
    rewrite Hhist in H1. rewrite Hcur in H2. simpl in H2.
    injection H1 as _ ->. rewrite H2. simpl. now rewrite <- app_assoc.
  - unfold migrate_up_one.
    rewrite (bind_ok _ _ _ _ _ Hhist), (bind_ok _ _ _ _ _ Hcur).
    unfold bind, lift_result. now destruct (next_revision h cur).
Qed.

(** X12. When configuring the command executor with the engine raises,
    the [with] block raises the same: no connection executor is built, the
    body is not run, and the only calls made are [from_config] and
    [configure]. *)
Theorem runner_stops_when_configure_fails
    config (engine : Engine) (body : MigrationContext -> St Env unit) (e0 : Env) ce w x w1 :
  CommandExecutor_from_config exec config (world e0) = (Ok ce, w) ->
  configure exec ce engine w = (Err x, w1) ->
  with_context (runner exec config (Some engine)) body e0
  = (Err x, {| world := w1;
               trace := trace e0 ++ [EvFromConfig config; EvConfigure engine] |}).
Proof.
  intros Hfrom Hconf. unfold with_context.
  apply bind_err. unfold runner, bind, external. rewrite Hfrom. simpl.
  rewrite Hconf. simpl. now rewrite <- app_assoc.
Qed.

End Failures.


(** ** Counting the calls of an upgrade *)

Section Counting.
Context {World Engine CommandExecutor ConnectionExecutor History : Type}.
Context `{HistOps : HistoryOps History}.
Variable exec : Executors World Engine CommandExecutor ConnectionExecutor.

Abbreviation RState := (@RState World Engine CommandExecutor ConnectionExecutor).

Lemma upgrade_targets_plan (rud : gmap string pyval) (range : list string) :
  upgrade_targets (upgrade_plan (Engine := Engine) rud range) = range.
Proof.
  unfold upgrade_targets, upgrade_plan.
  induction range as [|r range IH]; simpl; [reflexivity|].
  rewrite flat_map_app, IH. unfold upgrade_events.
  destruct (seed_data rud r); reflexivity.
Qed.

Lemma inserted_revisions_plan (rud : gmap string pyval) (range : list string) :
  inserted_revisions (upgrade_plan (Engine := Engine) rud range)
  = seeded_revisions rud range.
Proof.
  unfold inserted_revisions, upgrade_plan, seeded_revisions.
  induction range as [|r range IH]; simpl; [reflexivity|].
  rewrite flat_map_app, IH. unfold upgrade_events.
  destruct (seed_data rud r); reflexivity.
Qed.

(** X13. When [managed_upgrade] returns, the "upgrade" commands it has
    issued after its two queries are one per revision of the resolved range,
    in the order of the range, and its seed inserts are one per revision of
    the range with seed data registered, in that order too. *)
Theorem managed_upgrade_one_upgrade_per_revision
    (dest : option string) (s s1 s2 : RState) cur h range :
  current exec s = (Ok cur, s1) ->
  history exec s1 = (Ok h, s2) ->
  revision_range h cur dest = Ok range ->
  fst (managed_upgrade exec dest s) = Ok tt ->
  exists evs,
    trace (env (snd (managed_upgrade exec dest s))) = trace (env s2) ++ evs
    /\ upgrade_targets evs = range
    /\ inserted_revisions evs = seeded_revisions (revision_upgrade_data (self s)) range.
Proof.
  intros Hcur Hhist Hrange.
  destruct (managed_upgrade_unfold exec _ _ _ _ _ _ _ Hcur Hhist Hrange) as [-> Hself].
  intros Hok. destruct (for_each_upgrade_trace exec range s2) as [evs [Ht [_ Hall]]].
  exists evs. rewrite (Hall Hok), Hself in *.
  split; [exact Ht|]. split; [apply upgrade_targets_plan | apply inserted_revisions_plan].
Qed.

(** X14. A history that cannot be read stops every migration that needs
    it: when the "history" query raises, or its output does not parse,
    [migrate_up_before], [migrate_up_one], [migrate_down_before] and
    [migrate_down_to] raise the same error having made no other call, and
    [managed_upgrade] raises it after its "current" query: no "upgrade" or
    "downgrade" command is issued. *)
Theorem unreadable_history_stops_migrations
    (get_hash_before : option string -> St RState pyval) (s s1 : RState) e :
  history exec s = (Err e, s1) ->
  trace (env s1) = trace (env s) ++ [history_query]
  /\ (forall revision, migrate_up_before exec revision s = (Err e, s1))
  /\ migrate_up_one exec s = (Err e, s1)
  /\ (forall revision, migrate_down_before exec get_hash_before revision s = (Err e, s1))
  /\ (forall revision, migrate_down_to exec revision s = (Err e, s1))
  /\ (forall dest s0 cur, current exec s0 = (Ok cur, s) ->
                          managed_upgrade exec dest s0 = (Err e, s1)).
Proof.
  intros Hhist. repeat split.
  - pose proof (history_eq exec s) as Heq. rewrite Hhist in Heq.
    injection Heq as _ ->. reflexivity.
  - intros revision. unfold migrate_up_before. now apply bind_err.
  - unfold migrate_up_one. now apply bind_err.
  - intros revision. rewrite migrate_down_before_eq. now rewrite Hhist.
  - intros revision. rewrite migrate_down_to_eq. now rewrite Hhist.
  - intros dest s0 cur Hcur. unfold managed_upgrade.
    rewrite (bind_ok _ _ _ _ _ Hcur). now apply bind_err.
Qed.

End Counting.

(** ** The further properties on the in-memory executors *)


Lemma managed_upgrade_without_steps_witness :
  managed_upgrade Demo.demo_exec (Some "R2") AtHead.state0 = (Ok tt, AtHead.state_history)
  /\ managed_upgrade Demo.demo_exec (Some "R9") AtHead.state0
     = (Err (UnknownRevisionError "R9"), AtHead.state_history).
Proof.
  split.
  - destruct (managed_upgrade_without_steps (HistOps := AlembicHistory_ops)
                Demo.demo_exec (Some "R2") AtHead.state0 AtHead.state_current
                AtHead.state_history "R2" Demo.history0 eq_refl eq_refl)
      as [_ [_ Hempty]].
    exact (Hempty eq_refl).
  - destruct (managed_upgrade_without_steps (HistOps := AlembicHistory_ops)
                Demo.demo_exec (Some "R9") AtHead.state0 AtHead.state_current
                AtHead.state_history "R2" Demo.history0 eq_refl eq_refl)
      as [_ [Herr _]].
    exact (Herr (UnknownRevisionError "R9") eq_refl).
Defined.

Lemma managed_upgrade_stops_at_first_failure_witness :
  managed_upgrade Demo.demo_exec (Some "R2") (Faulty.state0 None)
  = (Err (AttributeError "NoneType" "table_insert"), Faulty.state_history None).
Proof.
  exact (managed_upgrade_stops_at_first_failure (HistOps := AlembicHistory_ops)
           Demo.demo_exec (Some "R2") (Faulty.state0 None) (Faulty.state_current None)
           (Faulty.state_history None) (Faulty.state_history None)
           (Faulty.state_history None) "base" Demo.history0 [] "R1" ["R2"]
           (AttributeError "NoneType" "table_insert")
           eq_refl eq_refl eq_refl eq_refl eq_refl).
Defined.

Lemma failed_insert_skips_upgrade_witness :
  upgrade_step Faulty.faulty_exec "R1" (Faulty.state0 (Some tt))
  = (Err (ToolError "no such table"),
     after_call (Faulty.state0 (Some tt))
       (EvTableInsert "R1" (VList [VDict [("id", VInt 7)]])) Demo.world0).
Proof.
  exact (failed_insert_skips_upgrade Faulty.faulty_exec (Faulty.state0 (Some tt)) "R1"
           (VList [VDict [("id", VInt 7)]]) tt (ToolError "no such table") Demo.world0
           eq_refl eq_refl eq_refl eq_refl).
Defined.

Lemma insert_into_tags_current_revision_witness :
  insert_into Demo.demo_exec (VStr "users") (VDict [("id", VInt 1)]) AtHead.state0
  = (Ok VNone,
     after_call AtHead.state_current
       (EvConnectionCall (VStr "R2") (VStr "users") (VDict [("id", VInt 1)]))
       (Demo.add_row "R2" (VDict [("id", VInt 1)]) AtHead.world2)).
Proof.
  exact (insert_into_tags_current_revision Demo.demo_exec (VStr "users")
           (VDict [("id", VInt 1)]) AtHead.state0 AtHead.state_current (Ok "R2") eq_refl).
Defined.

Lemma generate_revision_stops_before_the_file_is_written_witness :
  generate_revision Demo.demo_exec (Some AtHead.marking_callback) [] AtHead.state0
  = (Ok VNone,
     after_call AtHead.state0 (EvRunCommand "revision" [] [])
       (Demo.write_script "seen by the callback" AtHead.world2)).
Proof.
  exact (generate_revision_stops_before_the_file_is_written Demo.demo_exec
           (Some AtHead.marking_callback) [] Demo.demo_args AtHead.write_the_file
           AtHead.state0 (fun hook => eq_refl)).
Defined.

Lemma migrate_up_before_is_upgrade_to_previous_witness :
  migrate_up_before Demo.demo_exec "R2" (Demo.state0 (Some tt))
  = managed_upgrade Demo.demo_exec (Some "R1") (Demo.state_history_only (Some tt)).
Proof.
  destruct (migrate_up_before_is_upgrade_to_previous (HistOps := AlembicHistory_ops)
              Demo.demo_exec "R2" (Demo.state0 (Some tt))
              (Demo.state_history_only (Some tt)) Demo.history0 eq_refl)
    as [_ Heq].
  exact Heq.
Defined.

Lemma migrate_up_one_is_upgrade_to_next_witness :
  migrate_up_one Demo.demo_exec (Demo.state0 (Some tt))
  = managed_upgrade Demo.demo_exec (Some "R1")
      (after_call (Demo.state_history_only (Some tt)) (EvRunCommand "current" [] [])
         Demo.world0).
Proof.
  destruct (migrate_up_one_is_upgrade_to_next (HistOps := AlembicHistory_ops)
              Demo.demo_exec (Demo.state0 (Some tt)) (Demo.state_history_only (Some tt))
              (after_call (Demo.state_history_only (Some tt))
                 (EvRunCommand "current" [] []) Demo.world0)
              Demo.history0 "base" eq_refl eq_refl)
    as [_ Heq].
  exact Heq.
Defined.

Lemma runner_stops_when_configure_fails_witness :
  with_context (runner Faulty.faulty_exec Demo.config (Some tt))
    (on_context (migrate_up_to Faulty.faulty_exec "R2")) Demo.env0
  = (Err (ToolError "cannot connect"),
     {| world := Demo.world0;
        trace := [EvFromConfig Demo.config; EvConfigure tt] |}).
Proof.
  exact (runner_stops_when_configure_fails Faulty.faulty_exec Demo.config tt
           (on_context (migrate_up_to (HistOps := AlembicHistory_ops)
                          Faulty.faulty_exec "R2"))
           Demo.env0 tt Demo.world0 (ToolError "cannot connect") Demo.world0
           eq_refl eq_refl).
Defined.

Lemma managed_upgrade_one_upgrade_per_revision_witness :
  exists evs,
    trace (env (snd (managed_upgrade Demo.demo_exec (Some "R2") (Demo.state0 (Some tt)))))
    = [EvRunCommand "current" [] []; EvRunCommand "history" [] []] ++ evs
    /\ upgrade_targets evs = ["R1"; "R2"]
    /\ inserted_revisions evs = ["R2"].
Proof.
  exact (managed_upgrade_one_upgrade_per_revision (HistOps := AlembicHistory_ops)
           Demo.demo_exec (Some "R2") (Demo.state0 (Some tt))
           (Demo.state_current (Some tt)) (Demo.state_history (Some tt))
           "base" Demo.history0 ["R1"; "R2"] eq_refl eq_refl eq_refl eq_refl).
Defined.

Lemma unreadable_history_stops_migrations_witness :
  migrate_down_to Demo.demo_exec "R1" Unreadable.state0
  = (Err (ParseError "not a revision line"), Unreadable.state_history)
  /\ migrate_up_one Demo.demo_exec Unreadable.state0
     = (Err (ParseError "not a revision line"), Unreadable.state_history).
Proof.
  destruct (unreadable_history_stops_migrations (HistOps := AlembicHistory_ops)
              Demo.demo_exec (fun _ => ret VNone) Unreadable.state0
              Unreadable.state_history (ParseError "not a revision line") eq_refl)
    as [_ [_ [Hone [_ [Hdown _]]]]].
  split; [exact (Hdown "R1") | exact Hone].
Defined.
